(** * A DNS resolver: wire codec and delegation walk

    Shallow embedding of avdemchenko/dns-resolver (TypeScript, Node.js):
    [encodeDomainName], [parseDomainName], [interpretRDataARecord],
    [createDNSQuery], [parseResponse] and [processDNSResponse], followed by
    the properties stated about them.

    Conventions of the embedding.
    - A Node [Buffer] is a [list Z] of byte values; every constructor used by
      the code ([Buffer.from], [Buffer.concat], [slice]) is modelled, and
      [Buf.wf] says that all elements lie in [0, 255].
    - A JavaScript number that the code computes is an integer or [NaN]
      ([JS.number]); reading past the end of a buffer with [buffer[i]] gives
      [undefined], modelled by [None].
    - A JavaScript string is a [string] of 8-bit characters (Latin-1 code
      units), enough for every string the decoder produces.
    - [while (true)] in [parseDomainName] is a loop body iterated with fuel;
      [OutOfFuel] is the outcome of a run that has returned nothing when its
      fuel is spent.  A run that returns [Ok] in the model returns the same
      value in JavaScript.  A run that is [OutOfFuel] for every fuel returns
      no value: when its state comes back to itself (a pointer to itself) it
      loops for ever; when its name grows at every round (an offset that has
      become [NaN]) the JavaScript engine ends it, by a RangeError for the
      length of the string or by exhaustion of the heap, neither of which is
      modelled: strings are unbounded here.  Statements about such runs say
      that no value is returned, and nothing about how they end. *)

From Stdlib Require Import ZArith List String Ascii Bool Lia.
Import ListNotations.

Local Open Scope string_scope.
Local Open Scope Z_scope.

(** ** Outcomes: a value, a thrown exception, or a run out of fuel *)

Inductive exn : Type :=
| Error (message : string)      (* throw new Error(message) *)
| RangeError                    (* ERR_OUT_OF_RANGE of Buffer.readUInt16BE *)
| TypeError.                    (* property read on undefined *)

Inductive outcome (A : Type) : Type :=
| Ok (a : A)
| Throw (e : exn)
| OutOfFuel.

Arguments Ok {A} a.
Arguments Throw {A} e.
Arguments OutOfFuel {A}.

Definition bind {A B : Type} (m : outcome A) (k : A -> outcome B) : outcome B :=
  match m with
  | Ok a => k a
  | Throw e => Throw e
  | OutOfFuel => OutOfFuel
  end.

Notation "x <- m ;; k" := (bind m (fun x => k))
  (at level 61, m at next level, right associativity).

(** ** The fragment of JavaScript arithmetic the code relies on *)

Module JS.

Inductive number : Type :=
| Num (z : Z)
| NaN.

(** [a + b] on numbers. *)
Definition add (a b : number) : number :=
  match a, b with
  | Num x, Num y => Num (x + y)
  | _, _ => NaN
  end.

(** ToNumber of a value that is a byte or [undefined]. *)
Definition toNumber (v : option Z) : number :=
  match v with
  | Some z => Num z
  | None => NaN
  end.

(** ToInt32 of a value that is a byte or [undefined], as the bitwise
    operators [&] and [|] apply it: [undefined] becomes 0. *)
Definition toInt32 (v : option Z) : Z :=
  match v with
  | Some z => z
  | None => 0
  end.

(** [Math.trunc(x) || 0] on a number that is an integer or [NaN]. *)
Definition truncOr0 (x : number) : Z :=
  match x with
  | Num z => z
  | NaN => 0
  end.

(** [x <= n] and [x >= n]: comparisons with [NaN] are false. *)
Definition leb (x : number) (n : Z) : bool :=
  match x with
  | Num z => z <=? n
  | NaN => false
  end.

Definition geb (x : number) (n : Z) : bool :=
  match x with
  | Num z => n <=? z
  | NaN => false
  end.

Definition gtb (x : number) (n : Z) : bool :=
  match x with
  | Num z => n <? z
  | NaN => false
  end.

(** [Number.prototype.toString(radix)] on a non-negative integer, for a
    radix between 2 and 16: the digits of the value, most significant
    first, lowercase, no padding. *)
Definition digitChar (d : Z) : ascii :=
  if d <? 10 then ascii_of_N (Z.to_N (48 + d))
  else ascii_of_N (Z.to_N (87 + d)).

Fixpoint digits (fuel : nat) (radix n : Z) (acc : string) : string :=
  let acc' := String (digitChar (n mod radix)) acc in
  match fuel with
  | O => acc'
  | S fuel' =>
      if n / radix =? 0 then acc' else digits fuel' radix (n / radix) acc'
  end.

Definition toString (radix n : Z) : string :=
  digits (Z.to_nat (Z.log2 n)) radix n "".

(** [Array.prototype.join(sep)] on an array of strings. *)
Fixpoint join (sep : string) (parts : list string) : string :=
  match parts with
  | [] => ""
  | [p] => p
  | p :: rest => p ++ sep ++ join sep rest
  end.

(** [String.prototype.split(sep)] for a one-character separator: the
    pieces between the occurrences of [sep]; always at least one piece. *)
Fixpoint split (sep : ascii) (s : string) : list string :=
  match s with
  | EmptyString => [""]
  | String c s' =>
      if Ascii.eqb c sep then "" :: split sep s'
      else match split sep s' with
           | [] => [String c ""]
           | p :: ps => String c p :: ps
           end
  end.

End JS.

(** ** Node's Buffer *)

Module Buf.

Definition t : Type := list Z.

Definition wf (b : t) : Prop := Forall (fun x => 0 <= x < 256) b.

Definition length (b : t) : Z := Z.of_nat (List.length b).

(** [buffer[i]] for an integer index: [undefined] out of range. *)
Definition getZ (b : t) (i : Z) : option Z :=
  if i <? 0 then None else nth_error b (Z.to_nat i).

(** [buffer[i]] for a number. *)
Definition get (b : t) (i : JS.number) : option Z :=
  match i with
  | JS.Num z => getZ b z
  | JS.NaN => None
  end.

(** [Buffer.from(array)]: each entry is stored modulo 256. *)
Definition from (a : list Z) : t := map (fun x => x mod 256) a.

(** [Buffer.from(string, 'ascii')]: one byte per code unit, its low 8 bits. *)
Definition fromString (s : string) : t :=
  map (fun c => Z.of_N (N_of_ascii c)) (list_ascii_of_string s).

Definition concat (bs : list t) : t := List.concat bs.

(** The bytes of [b] from index [s] (inclusive) to [e] (exclusive), for
    [0 <= s]; an [e] beyond the end is clamped by [firstn]. *)
Definition sub (b : t) (s e : Z) : t :=
  firstn (Z.to_nat (e - s)) (skipn (Z.to_nat s) b).

(** [buffer.slice(start, end)]; the code only passes a non-negative start
    and an end that is not below it ([NaN] counts as 0). *)
Definition slice (b : t) (s e : JS.number) : t :=
  sub b (JS.truncOr0 s) (JS.truncOr0 e).

(** Decoding with the 'ascii' encoding clears the top bit of each byte. *)
Definition asciiDecode (b : t) : string :=
  string_of_list_ascii
    (map (fun x => ascii_of_N (Z.to_N (Z.land x 127))) b).

(** [buffer.toString('ascii', start, end)], as Node implements it:
    [if (start <= 0) start = 0; else if (start >= len) return '';
     else start = Math.trunc(start) || 0;
     if (end === undefined || end > len) end = len;
     else end = Math.trunc(end) || 0;
     if (end <= start) return '';]
    then the bytes from [start] to [end] are decoded.  The code never
    passes [undefined] for [end]. *)
Definition toStringAscii (b : t) (start end_ : JS.number) : string :=
  let len := length b in
  let start' :=
    if JS.leb start 0 then Some 0
    else if JS.geb start len then None
    else Some (JS.truncOr0 start) in
  match start' with
  | None => ""
  | Some s =>
      let e := if JS.gtb end_ len then len else JS.truncOr0 end_ in
      if e <=? s then "" else asciiDecode (sub b s e)
  end.

(** [buffer.toString('hex')]: two lowercase hexadecimal digits per byte. *)
Definition toStringHex (b : t) : string :=
  String.concat ""
    (map (fun x => String (JS.digitChar (x / 16))
                     (String (JS.digitChar (x mod 16)) "")) b).

(** [buffer.readUInt16BE(offset)]: throws when the two bytes are not both
    inside the buffer. *)
Definition readUInt16BE (b : t) (offset : JS.number) : outcome Z :=
  match get b offset, get b (JS.add offset (JS.Num 1)) with
  | Some hi, Some lo => Ok (hi * 256 + lo)
  | _, _ => Throw RangeError
  end.

End Buf.

(** ** Name codec *)

(** encodeDomainName.ts *)
Definition encodeLabel (part : string) : Buf.t :=
  let length := Buf.from [Z.of_nat (String.length part)] in
  let content := Buf.fromString part in
  Buf.concat [length; content].

Definition encodeDomainName (domain : string) : Buf.t :=
  let parts := JS.split "."%char domain in
  let buffers := map encodeLabel parts in
  Buf.concat (buffers ++ [Buf.from [0]])%list.

(** parseDomainName.ts *)
Definition isEndOfName (lengthByte : option Z) : bool :=
  match lengthByte with
  | Some z => z =? 0
  | None => false
  end.

Definition isPointerIndicator (lengthByte : option Z) : bool :=
  Z.land (JS.toInt32 lengthByte) 0xc0 =? 0xc0.

Definition calculatePointerOffset
  (lengthByte : option Z) (buffer : Buf.t) (currentOffset : JS.number) : Z :=
  Z.lor (Z.shiftl (Z.land (JS.toInt32 lengthByte) 0x3f) 8)
        (JS.toInt32 (Buf.get buffer (JS.add currentOffset (JS.Num 1)))).

Definition readLabel
  (buffer : Buf.t) (offset : JS.number) (length : option Z) : string :=
  let startOfLabel := JS.add offset (JS.Num 1) in
  let endOfLabel := JS.add startOfLabel (JS.toNumber length) in
  Buf.toStringAscii buffer startOfLabel endOfLabel.

(** The local variables of [parseDomainName]. *)
Record locals : Type := mkLocals {
  l_name : string;
  l_hasEncounteredPointer : bool;
  l_originalOffset : JS.number;
  l_offset : JS.number
}.

Record parsedName : Type := mkParsedName {
  domainName : string;
  newOffset : JS.number
}.

(** One round of the [while (true)] loop: [inl] when the loop goes on
    ([continue] or the end of the body), [inr] after [break]. *)
Definition loopBody (buffer : Buf.t) (st : locals) : locals + locals :=
  let offset := l_offset st in
  let lengthByte := Buf.get buffer offset in
  if isEndOfName lengthByte then
    inr (mkLocals (l_name st) (l_hasEncounteredPointer st)
           (l_originalOffset st) (JS.add offset (JS.Num 1)))
  else if isPointerIndicator lengthByte then
    let target := JS.Num (calculatePointerOffset lengthByte buffer offset) in
    if negb (l_hasEncounteredPointer st) then
      inl (mkLocals (l_name st) true (JS.add offset (JS.Num 2)) target)
    else
      inl (mkLocals (l_name st) (l_hasEncounteredPointer st)
             (l_originalOffset st) target)
  else
    let label := readLabel buffer offset lengthByte in
    inl (mkLocals ((l_name st ++ label) ++ ".") (l_hasEncounteredPointer st)
           (l_originalOffset st)
           (JS.add (JS.add offset (JS.toNumber lengthByte)) (JS.Num 1))).

Definition finish (st : locals) : parsedName :=
  mkParsedName (l_name st)
    (if l_hasEncounteredPointer st then l_originalOffset st else l_offset st).

(** The loop, for at most [fuel] rounds.  [OutOfFuel] says that the loop
    has not reached [break] within these rounds; strings are unbounded
    here, so that a run whose name grows at every round is [OutOfFuel] for
    every fuel where the JavaScript engine ends it (RangeError for the
    length of the string, or exhaustion of the heap): in both readings the
    run returns no value. *)
Fixpoint loop (fuel : nat) (buffer : Buf.t) (st : locals) : outcome parsedName :=
  match fuel with
  | O => OutOfFuel
  | S fuel' =>
      match loopBody buffer st with
      | inr st' => Ok (finish st')
      | inl st' => loop fuel' buffer st'
      end
  end.

Definition parseDomainName
  (fuel : nat) (buffer : Buf.t) (offset : JS.number) : outcome parsedName :=
  let name := "" in
  let hasEncounteredPointer := false in
  let originalOffset := offset in
  loop fuel buffer (mkLocals name hasEncounteredPointer originalOffset offset).

(** ** Record interpreter (interpretRDataARecord.ts) *)

Definition A_RECORD_TYPE : Z := 1.
Definition AAAA_RECORD_TYPE : Z := 28.
Definition NS_RECORD_TYPE : Z := 2.
Definition HEX_BASE : Z := 16.

Definition interpretIPv4Address (rdata : Buf.t) : string :=
  let ipAddressArray := rdata in
  JS.join "." (map (JS.toString 10) ipAddressArray).

(** The [for] loop of [interpretIPv6Address]; [n] bounds the number of
    rounds and is chosen above the number of rounds the loop can make. *)
Fixpoint ipv6Loop (n : nat) (rdata : Buf.t) (byteIndex : Z) (parts : list string)
  : outcome (list string) :=
  if byteIndex <? Buf.length rdata then
    match n with
    | O => OutOfFuel
    | S n' =>
        groupValue <- Buf.readUInt16BE rdata (JS.Num byteIndex) ;;
        let hexString := JS.toString HEX_BASE groupValue in
        ipv6Loop n' rdata (byteIndex + 2) (parts ++ [hexString])%list
    end
  else Ok parts.

Definition interpretIPv6Address (rdata : Buf.t) : outcome string :=
  parts <- ipv6Loop (List.length rdata) rdata 0 [] ;;
  Ok (JS.join ":" parts).

Definition interpretRDataARecord (rdata : Buf.t) (type : Z) : outcome string :=
  if type =? A_RECORD_TYPE then Ok (interpretIPv4Address rdata)
  else if type =? AAAA_RECORD_TYPE then interpretIPv6Address rdata
  else Ok (Buf.toStringHex rdata).

(** ** Message codec *)

(** createDNSQuery.ts; the identifier is the caller's, or two random bytes
    from [generateIdentifier]. *)
Definition createDNSQuery (domain : string) (identifier : Buf.t) : Buf.t :=
  let flags := Buf.from [0x00; 0x00] in
  let questionCount := Buf.from [0x00; 0x01] in
  let answerRR := Buf.from [0x00; 0x00] in
  let authorityRR := Buf.from [0x00; 0x00] in
  let additionalRR := Buf.from [0x00; 0x00] in
  let encodedDomain := encodeDomainName domain in
  let type := Buf.from [0x00; 0x01] in
  let classBuffer := Buf.from [0x00; 0x01] in
  Buf.concat
    [identifier; flags; questionCount; answerRR; authorityRR; additionalRR;
     encodedDomain; type; classBuffer].

(** parseResponse.ts *)
Record Header : Type := mkHeader {
  transactionID : Z;
  questionsCount : Z;
  answersCount : Z;
  authorityCount : Z;
  additionalCount : Z
}.

Module DNSRecord.
Record t : Type := mk {
  domainName : string;
  type : Z;
  rdata : string;
  offset : JS.number
}.
End DNSRecord.

Record Response : Type := mkResponse {
  header : Header;
  questionName : string;
  answerRecords : list DNSRecord.t;
  authorityRecords : list DNSRecord.t;
  additionalRecords : list DNSRecord.t
}.

Definition isResponse (buffer : Buf.t) : outcome bool :=
  flags <- Buf.readUInt16BE buffer (JS.Num 2) ;;
  Ok (negb (Z.land flags 0x8000 =? 0)).

Definition parseHeader (buffer : Buf.t) : outcome Header :=
  transactionID <- Buf.readUInt16BE buffer (JS.Num 0) ;;
  questionsCount <- Buf.readUInt16BE buffer (JS.Num 4) ;;
  answersCount <- Buf.readUInt16BE buffer (JS.Num 6) ;;
  authorityCount <- Buf.readUInt16BE buffer (JS.Num 8) ;;
  additionalCount <- Buf.readUInt16BE buffer (JS.Num 10) ;;
  Ok (mkHeader transactionID questionsCount answersCount authorityCount
        additionalCount).

Definition parseQuestionSection
  (fuel : nat) (buffer : Buf.t) (offset : JS.number) : outcome parsedName :=
  parseDomainName fuel buffer offset.

Definition parseRecord
  (fuel : nat) (buffer : Buf.t) (offset : JS.number) : outcome DNSRecord.t :=
  domainNameData <- parseDomainName fuel buffer offset ;;
  let offset := newOffset domainNameData in
  type <- Buf.readUInt16BE buffer offset ;;
  let offset := JS.add offset (JS.Num 2) in
  let offset := JS.add offset (JS.Num 2) in
  let offset := JS.add offset (JS.Num 4) in
  dataLength <- Buf.readUInt16BE buffer offset ;;
  let offset := JS.add offset (JS.Num 2) in
  if type =? NS_RECORD_TYPE then
    nsName <- parseDomainName fuel buffer offset ;;
    let offset := newOffset nsName in
    let rdata := domainName nsName in
    Ok (DNSRecord.mk (domainName domainNameData) type rdata offset)
  else
    let rdataBuffer :=
      Buf.slice buffer offset (JS.add offset (JS.Num dataLength)) in
    rdata <- interpretRDataARecord rdataBuffer type ;;
    let offset := JS.add offset (JS.Num dataLength) in
    Ok (DNSRecord.mk (domainName domainNameData) type rdata offset).

(** The [for] loop of [parseSections], [n] rounds still to go. *)
Fixpoint parseSectionsLoop
  (fuel : nat) (buffer : Buf.t) (n : nat) (offset : JS.number)
  (records : list DNSRecord.t) : outcome (list DNSRecord.t) :=
  match n with
  | O => Ok records
  | S n' =>
      record <- parseRecord fuel buffer offset ;;
      parseSectionsLoop fuel buffer n' (DNSRecord.offset record)
        (records ++ [record])%list
  end.

Definition parseSections
  (fuel : nat) (buffer : Buf.t) (count : Z) (startOffset : JS.number)
  : outcome (list DNSRecord.t) :=
  parseSectionsLoop fuel buffer (Z.to_nat count) startOffset [].

Definition updateOffset
  (records : list DNSRecord.t) (currentOffset : JS.number) : JS.number :=
  if 0 <? Z.of_nat (List.length records) then
    match nth_error records (List.length records - 1) with
    | Some r => DNSRecord.offset r
    | None => currentOffset
    end
  else currentOffset.

Definition parseResponse (fuel : nat) (buffer : Buf.t) : outcome Response :=
  response <- isResponse buffer ;;
  if negb response then Throw (Error "Not a DNS response.")
  else
    header <- parseHeader buffer ;;
    let offset := JS.Num 12 in
    question <- parseQuestionSection fuel buffer offset ;;
    let offset := JS.add (newOffset question) (JS.Num 4) in
    answerRecords <- parseSections fuel buffer (answersCount header) offset ;;
    let offset := updateOffset answerRecords offset in
    authorityRecords <- parseSections fuel buffer (authorityCount header) offset ;;
    let offset := updateOffset authorityRecords offset in
    additionalRecords <-
      parseSections fuel buffer (additionalCount header) offset ;;
    Ok (mkResponse header (domainName question) answerRecords authorityRecords
          additionalRecords).

(** ** Resolution engine (index.ts) *)

Definition ROOT_DNS_SERVER : string := "198.41.0.4".
Definition DNS_PORT : Z := 53.
Definition DOMAIN_TO_RESOLVE : string := "www.google.com".

(** What one call of [processDNSResponse] does to the outside world. *)
Inductive effect : Type :=
| CallQueryDNS (domain server : string)   (* queryDNS(domain, server) *)
| ConsoleLog (message value : string).    (* console.log(message, value) *)

(** The datagram that [client.send(dnsQuery, DNS_PORT, server, ...)] hands to
    the transport. *)
Record datagram : Type := mkDatagram {
  dg_payload : Buf.t;
  dg_port : Z;
  dg_address : string
}.

(** The sending half of [queryDNS]; [identifier] is the result of
    [generateIdentifier ()]. *)
Definition queryDNS (identifier : Buf.t) (domain server : string) : datagram :=
  let dnsQuery := createDNSQuery domain identifier in
  mkDatagram dnsQuery DNS_PORT server.

(** Truthiness of a value that is a string or [undefined]. *)
Definition truthy (v : option string) : bool :=
  match v with
  | None => false
  | Some s => negb (String.eqb s "")
  end.

Definition processDNSResponse (response : Response) : outcome (list effect) :=
  let nsRecords :=
    filter (fun rec => DNSRecord.type rec =? NS_RECORD_TYPE)
      (authorityRecords response) in
  match nsRecords with
  | nsRecord :: _ =>                       (* nsRecords.length > 0 *)
      let nsIP :=
        option_map DNSRecord.rdata
          (find (fun rec =>
                   String.eqb (DNSRecord.domainName rec) (DNSRecord.rdata nsRecord))
             (additionalRecords response)) in
      if truthy nsIP then
        match nsIP with
        | Some ip => Ok [CallQueryDNS DOMAIN_TO_RESOLVE ip]
        | None => Ok []
        end
      else Ok []
  | [] =>
      match answerRecords response with
      | answerRecord :: _ =>
          Ok [ConsoleLog "IP Address found: " (DNSRecord.rdata answerRecord)]
      | [] => Throw TypeError              (* answerRecord is undefined *)
      end
  end.

(** The handler that [queryDNS] installs for the 'message' event: the
    datagram received is parsed and the response processed (the socket is
    closed afterwards, which the transport sees and the codec does not). *)
Definition onMessage (fuel : nat) (message : Buf.t) : outcome (list effect) :=
  response <- parseResponse fuel message ;;
  processDNSResponse response.

(** ** Definitions that follow the specification's words *)

(** The state in which [parseDomainName] enters its loop. *)
Definition initial (offset : JS.number) : locals :=
  mkLocals "" false offset offset.

(** The state of [parseDomainName] after [n] rounds of its loop, [None] once
    the loop has ended. *)
Fixpoint rounds (n : nat) (buffer : Buf.t) (st : locals) : option locals :=
  match n with
  | O => Some st
  | S n' =>
      match loopBody buffer st with
      | inl st' => rounds n' buffer st'
      | inr _ => None
      end
  end.

(** "A length byte whose top two bits are 11 is a compression pointer":
    byte [p] of [buffer] is one. *)
Definition pointerAt (buffer : Buf.t) (p : Z) : Prop :=
  exists b, Buf.getZ buffer p = Some b /\ 192 <= b.

(** "The remaining 14 bits (this byte's low 6 bits plus the next byte) give
    an absolute offset": the target of the pointer at [p]. *)
Definition pointerTarget (buffer : Buf.t) (p : Z) : Z :=
  (JS.toInt32 (Buf.getZ buffer p) mod 64) * 256
  + JS.toInt32 (Buf.getZ buffer (p + 1)).

(** The decoding started at [offset] reads a pointer at position [p] in its
    round number [n] (counted from 0). *)
Definition meetsPointer
  (buffer : Buf.t) (offset : JS.number) (n : nat) (p : Z) : Prop :=
  exists st, rounds n buffer (initial offset) = Some st /\
             l_offset st = JS.Num p /\ pointerAt buffer p.

(** [p] is the position of the first pointer the decoding encounters. *)
Definition firstPointer (buffer : Buf.t) (offset : JS.number) (p : Z) : Prop :=
  exists n, meetsPointer buffer offset n p /\
            forall m q, (m < n)%nat -> ~ meetsPointer buffer offset m q.

(** The decoding encounters no pointer at all. *)
Definition noPointer (buffer : Buf.t) (offset : JS.number) : Prop :=
  forall n p, ~ meetsPointer buffer offset n p.

(** The decoding reaches the zero byte at position [z], which ends the name. *)
Definition endsAt (buffer : Buf.t) (offset : JS.number) (z : Z) : Prop :=
  exists n st, rounds n buffer (initial offset) = Some st /\
               l_offset st = JS.Num z /\ Buf.getZ buffer z = Some 0.

(** A label that the name codec carries unchanged: not empty, at most 191
    characters, each of them 7-bit ASCII. *)
Definition plainLabel (label : string) : bool :=
  negb (String.eqb label "")
  && (String.length label <=? 191)%nat
  && forallb (fun c => (N_of_ascii c <? 128)%N) (list_ascii_of_string label).

(** The labels of a name, each followed by the separator. *)
Fixpoint dotted (labels : list string) : string :=
  match labels with
  | [] => ""
  | label :: rest => (label ++ ".") ++ dotted rest
  end.

(** The string made of [n] copies of the character [c]. *)
Fixpoint stringRepeat (c : ascii) (n : nat) : string :=
  match n with
  | O => ""
  | S n' => String c (stringRepeat c n')
  end.

(** "Sequentially parses [count] records ... continuing from wherever the
    previous one ended": each record of the list is what [parseRecord]
    returns at the offset where the record before it ended, the first one at
    [start]. *)
Fixpoint parsedInSequence
  (fuel : nat) (buffer : Buf.t) (start : JS.number) (records : list DNSRecord.t)
  : Prop :=
  match records with
  | [] => True
  | r :: rest =>
      parseRecord fuel buffer start = Ok r /\
      parsedInSequence fuel buffer (DNSRecord.offset r) rest
  end.

(** The offset at which a section that starts at [start] ends: unchanged
    when the section has no record. *)
Fixpoint sectionEnd (start : JS.number) (records : list DNSRecord.t) : JS.number :=
  match records with
  | [] => start
  | r :: rest => sectionEnd (DNSRecord.offset r) rest
  end.

(** [x] is the first element of [l] that satisfies [P]. *)
Definition firstSuchThat {A : Type} (P : A -> Prop) (l : list A) (x : A) : Prop :=
  exists pre post, l = (pre ++ x :: post)%list /\ P x /\
                   forall y, In y pre -> ~ P y.

(** A record of type NS; a record whose owner name is [name]. *)
Definition isNS (rec : DNSRecord.t) : Prop := DNSRecord.type rec = NS_RECORD_TYPE.

Definition ownedBy (name : string) (rec : DNSRecord.t) : Prop :=
  DNSRecord.domainName rec = name.

(** Sixteen-bit big-endian groups of a buffer, two bytes each. *)
Fixpoint groups16 (b : Buf.t) : list Z :=
  match b with
  | hi :: lo :: rest => (hi * 256 + lo) :: groups16 rest
  | _ => []
  end.

(** Reading a string of lowercase hexadecimal digits, most significant
    first; [None] when a character is not among 0-9 and a-f. *)
Definition hexDigitValue (c : ascii) : option Z :=
  let n := Z.of_N (N_of_ascii c) in
  if (48 <=? n) && (n <=? 57) then Some (n - 48)
  else if (97 <=? n) && (n <=? 102) then Some (n - 87)
  else None.

Fixpoint hexValueFrom (acc : Z) (s : string) : option Z :=
  match s with
  | EmptyString => Some acc
  | String c s' =>
      match hexDigitValue c with
      | Some d => hexValueFrom (acc * 16 + d) s'
      | None => None
      end
  end.

(** [s] is the lowercase hexadecimal writing of [n] without padding: its
    digits read back as [n], and it has no leading zero unless it is "0". *)
Definition lowerHexOf (n : Z) (s : string) : Prop :=
  hexValueFrom 0 s = Some n /\
  (s = "0" \/ exists c s', s = String c s' /\ c <> "0"%char).

(** ** Sample messages *)

Definition selfPointer : Buf.t := [0xc0; 0x00].
Definition forwardPointer : Buf.t := [0xc0; 0x02; 0x00].

(** A pointer at offset 0 to the name "a" written after it, at offset 2. *)
Definition forwardName : Buf.t := [0xc0; 0x02; 0x01; 0x61; 0x00].

(** A response whose question name is a pointer to itself (offset 12). *)
Definition selfPointerResponse : Buf.t :=
  [0x00; 0x01; 0x80; 0x00; 0x00; 0x01; 0x00; 0x00; 0x00; 0x00; 0x00; 0x00;
   0xc0; 0x0c; 0x00; 0x01; 0x00; 0x01].

(** A single label of 192 characters. *)
Definition label192 : string := stringRepeat "a"%char 192.

(** A name reached through two pointers: at offset 9 a pointer to offset 5,
    where the label "a" is followed by a pointer to "com" at offset 0. *)
Definition chained : Buf.t :=
  [0x03; 0x63; 0x6f; 0x6d; 0x00; 0x01; 0x61; 0xc0; 0x00; 0xc0; 0x05].

(** A delegation: the question "example.", no answer, the authority record
    "example. NS ns1.example." and the additional record
    "ns1.example. A 10.0.0.1", names compressed with pointers. *)
Definition delegationResponse : Buf.t :=
  [0x12; 0x34; 0x80; 0x00; 0x00; 0x01; 0x00; 0x00; 0x00; 0x01; 0x00; 0x01;
   0x07; 0x65; 0x78; 0x61; 0x6d; 0x70; 0x6c; 0x65; 0x00;
   0x00; 0x01; 0x00; 0x01;
   0xc0; 0x0c; 0x00; 0x02; 0x00; 0x01; 0x00; 0x00; 0x00; 0x00; 0x00; 0x06;
   0x03; 0x6e; 0x73; 0x31; 0xc0; 0x0c;
   0xc0; 0x25; 0x00; 0x01; 0x00; 0x01; 0x00; 0x00; 0x00; 0x00; 0x00; 0x04;
   0x0a; 0x00; 0x00; 0x01].

Definition delegation : Response :=
  mkResponse (mkHeader 0x1234 1 0 1 1) "example." []
    [DNSRecord.mk "example." 2 "ns1.example." (JS.Num 43)]
    [DNSRecord.mk "ns1.example." 1 "10.0.0.1" (JS.Num 59)].

(** The delegation of [delegationResponse] without its additional record. *)
Definition gluelessResponse : Buf.t :=
  [0x12; 0x34; 0x80; 0x00; 0x00; 0x01; 0x00; 0x00; 0x00; 0x01; 0x00; 0x00;
   0x07; 0x65; 0x78; 0x61; 0x6d; 0x70; 0x6c; 0x65; 0x00;
   0x00; 0x01; 0x00; 0x01;
   0xc0; 0x0c; 0x00; 0x02; 0x00; 0x01; 0x00; 0x00; 0x00; 0x00; 0x00; 0x06;
   0x03; 0x6e; 0x73; 0x31; 0xc0; 0x0c].

Definition nsExample : DNSRecord.t :=
  DNSRecord.mk "example." 2 "ns1.example." (JS.Num 43).

Definition glueless : Response :=
  mkResponse (mkHeader 0x1234 1 0 1 0) "example." [] [nsExample] [].

(** The delegation of [delegationResponse] whose additional A record has an
    rdata of length 0. *)
Definition emptyGlueResponse : Buf.t :=
  [0x12; 0x34; 0x80; 0x00; 0x00; 0x01; 0x00; 0x00; 0x00; 0x01; 0x00; 0x01;
   0x07; 0x65; 0x78; 0x61; 0x6d; 0x70; 0x6c; 0x65; 0x00;
   0x00; 0x01; 0x00; 0x01;
   0xc0; 0x0c; 0x00; 0x02; 0x00; 0x01; 0x00; 0x00; 0x00; 0x00; 0x00; 0x06;
   0x03; 0x6e; 0x73; 0x31; 0xc0; 0x0c;
   0xc0; 0x25; 0x00; 0x01; 0x00; 0x01; 0x00; 0x00; 0x00; 0x00; 0x00; 0x00].

Definition emptyGlue : DNSRecord.t :=
  DNSRecord.mk "ns1.example." 1 "" (JS.Num 55).

Definition emptyGlueDelegation : Response :=
  mkResponse (mkHeader 0x1234 1 0 1 1) "example." [] [nsExample] [emptyGlue].

(** A response with the question "example." and no record at all. *)
Definition emptyAnswerResponse : Buf.t :=
  [0x12; 0x34; 0x80; 0x00; 0x00; 0x01; 0x00; 0x00; 0x00; 0x00; 0x00; 0x00;
   0x07; 0x65; 0x78; 0x61; 0x6d; 0x70; 0x6c; 0x65; 0x00;
   0x00; 0x01; 0x00; 0x01].

Definition emptyResponse : Response :=
  mkResponse (mkHeader 0x1234 1 0 0 0) "example." [] [] [].

(** The buffer of the test of [parseDomainName]: "www.youtube.com". *)
Definition youtube : Buf.t :=
  [0x03; 0x77; 0x77; 0x77; 0x07; 0x79; 0x6f; 0x75; 0x74; 0x75; 0x62; 0x65;
   0x03; 0x63; 0x6f; 0x6d; 0x00].

(** ** Further definitions used by the properties of the codec *)

(** The bytes [bytes] sit in [buffer] from offset [o] on. *)
Definition holdsAt (buffer : Buf.t) (o : Z) (bytes : Buf.t) : Prop :=
  exists pre post, buffer = (pre ++ bytes ++ post)%list /\ Buf.length pre = o.

(** A query that never got its answer: twelve bytes of header, the flag of a
    response set, and nothing after them. *)
Definition headerOnly : Buf.t :=
  [0x12; 0x34; 0x80; 0x00; 0x00; 0x01; 0x00; 0x00; 0x00; 0x00; 0x00; 0x00].

(** The response [emptyAnswerResponse] with an answer count of 1 and no
    answer record behind the question. *)
Definition missingAnswerResponse : Buf.t :=
  [0x12; 0x34; 0x80; 0x00; 0x00; 0x01; 0x00; 0x01; 0x00; 0x00; 0x00; 0x00;
   0x07; 0x65; 0x78; 0x61; 0x6d; 0x70; 0x6c; 0x65; 0x00;
   0x00; 0x01; 0x00; 0x01].

(** The response [delegationResponse] cut in the middle of the fixed fields
    of its authority record. *)
Definition truncatedRecordResponse : Buf.t :=
  [0x12; 0x34; 0x80; 0x00; 0x00; 0x01; 0x00; 0x00; 0x00; 0x01; 0x00; 0x01;
   0x07; 0x65; 0x78; 0x61; 0x6d; 0x70; 0x6c; 0x65; 0x00;
   0x00; 0x01; 0x00; 0x01;
   0xc0; 0x0c; 0x00; 0x02; 0x00; 0x01; 0x00].

(** A message with the name "www.example.com" at offset 2 and, at offset
    19, the name "ns1" followed by a pointer to the "example.com" of the
    first one (offset 6). *)
Definition compressedNames : Buf.t :=
  [0xff; 0xff;
   0x03; 0x77; 0x77; 0x77; 0x07; 0x65; 0x78; 0x61; 0x6d; 0x70; 0x6c; 0x65;
   0x03; 0x63; 0x6f; 0x6d; 0x00;
   0x03; 0x6e; 0x73; 0x31; 0xc0; 0x06; 0xff].

(** A string ends with the separator of labels. *)
Definition endsWithDot (s : string) : Prop := exists t, s = t ++ ".".

(** Reading back what the record interpreter writes: a decimal number, a
    dotted sequence of decimal numbers, a string of pairs of hexadecimal
    digits. *)
Definition decDigitValue (c : ascii) : option Z :=
  let n := Z.of_N (N_of_ascii c) in
  if (48 <=? n) && (n <=? 57) then Some (n - 48) else None.

Fixpoint decValueFrom (acc : Z) (s : string) : option Z :=
  match s with
  | EmptyString => Some acc
  | String c s' =>
      match decDigitValue c with
      | Some d => decValueFrom (acc * 10 + d) s'
      | None => None
      end
  end.

Definition readDecimal (s : string) : option Z :=
  match s with
  | EmptyString => None
  | _ => decValueFrom 0 s
  end.

Fixpoint readAll (parts : list string) : option (list Z) :=
  match parts with
  | [] => Some []
  | p :: ps =>
      match readDecimal p, readAll ps with
      | Some v, Some vs => Some (v :: vs)
      | _, _ => None
      end
  end.

Definition readDottedDecimal (s : string) : option (list Z) :=
  readAll (JS.split "."%char s).

Fixpoint readHexPairs (s : string) : option (list Z) :=
  match s with
  | EmptyString => Some []
  | String c1 (String c2 s') =>
      match hexDigitValue c1, hexDigitValue c2, readHexPairs s' with
      | Some h, Some l, Some bs => Some ((h * 16 + l) :: bs)
      | _, _, _ => None
      end
  | String _ EmptyString => None
  end.

(** A string without the separator of labels. *)
Fixpoint noDot (s : string) : bool :=
  match s with
  | EmptyString => true
  | String c s' => negb (Ascii.eqb c "."%char) && noDot s'
  end.

(** An authoritative answer: the question "example.", one answer record
    "example. A 93.184.216.34" and nothing else. *)
Definition answerResponse : Buf.t :=
  [0x12; 0x34; 0x80; 0x00; 0x00; 0x01; 0x00; 0x01; 0x00; 0x00; 0x00; 0x00;
   0x07; 0x65; 0x78; 0x61; 0x6d; 0x70; 0x6c; 0x65; 0x00;
   0x00; 0x01; 0x00; 0x01;
   0xc0; 0x0c; 0x00; 0x01; 0x00; 0x01; 0x00; 0x00; 0x0e; 0x10; 0x00; 0x04;
   0x5d; 0xb8; 0xd8; 0x22].

Definition answerExample : DNSRecord.t :=
  DNSRecord.mk "example." 1 "93.184.216.34" (JS.Num 41).

Definition answered : Response :=
  mkResponse (mkHeader 0x1234 1 1 0 0) "example." [answerExample] [] [].

(** ** The length-prefixed encoding, in the words of the specification *)

(** "Prefixes each label with its one-byte length": the length of the label
    modulo 256, then the codes of its characters. *)
Definition labelBytes (label : string) : Buf.t :=
  (Z.of_nat (String.length label) mod 256)
  :: map (fun c => Z.of_nat (nat_of_ascii c)) (list_ascii_of_string label).

(** "... appends a terminating zero-length byte". *)
Definition lengthPrefixed (labels : list string) : Buf.t :=
  (flat_map labelBytes labels ++ [0])%list.

(** "Splits the domain on [.]": the labels of a domain are the strings
    without a dot that give the domain when they are joined by dots. *)
Definition labelsOf (domain : string) (labels : list string) : Prop :=
  labels <> [] /\ forallb noDot labels = true /\ JS.join "." labels = domain.

(** ** The wire format of a response, in the words of the specification *)

(** A 16-bit field, big-endian. *)
Definition encodeU16 (n : Z) : Buf.t := [n / 256; n mod 256].

(** The owner name of a record: written in full, or given by the pointer
    [c0 0c] to the name of the question at offset 12. *)
Inductive wireOwner : Type :=
| OwnerName (name : string)
| OwnerIsQuestion.

(** The data of a record: for type NS a name, written in full, behind an
    RDLENGTH field of any value; for another type, RDLENGTH bytes. *)
Inductive wireData : Type :=
| NameData (target : string) (rdlength : Z)
| RawData (type : Z) (rdata : Buf.t).

(** "owner name, TYPE(2), CLASS(2), TTL(4), RDLENGTH(2), RDATA";
    [w_classTtl] holds the six bytes of CLASS and TTL. *)
Record wireRecord : Type := mkWireRecord {
  w_owner : wireOwner;
  w_classTtl : Buf.t;
  w_data : wireData
}.


Definition encodeOwner (o : wireOwner) : Buf.t :=
  match o with
  | OwnerName name => encodeDomainName name
  | OwnerIsQuestion => [0xc0; 0x0c]
  end.

Definition encodeData (d : wireData) (classTtl : Buf.t) : Buf.t :=
  match d with
  | NameData target rdlength =>
      (encodeU16 NS_RECORD_TYPE ++ classTtl ++ encodeU16 rdlength
         ++ encodeDomainName target)%list
  | RawData type rdata =>
      (encodeU16 type ++ classTtl ++ encodeU16 (Buf.length rdata) ++ rdata)%list
  end.

Definition encodeRecord (r : wireRecord) : Buf.t :=
  (encodeOwner (w_owner r) ++ encodeData (w_data r) (w_classTtl r))%list.












(** What the message says, as the records of a parsed response. *)
Definition ownerText (q : string) (o : wireOwner) : string :=
  match o with
  | OwnerName name => name ++ "."
  | OwnerIsQuestion => q ++ "."
  end.

(** "A: four byte values joined by dots; AAAA: 16-bit big-endian groups in
    lowercase hexadecimal joined by colons; any other type: the raw bytes
    as a lowercase hexadecimal string". *)
Definition rdataText (type : Z) (rdata : Buf.t) : string :=
  if type =? 1 then JS.join "." (map (JS.toString 10) rdata)
  else if type =? 28 then JS.join ":" (map (JS.toString 16) (groups16 rdata))
  else Buf.toStringHex rdata.

Definition decodedRecord (q : string) (start : Z) (r : wireRecord) : DNSRecord.t :=
  let stop := JS.Num (start + Buf.length (encodeRecord r)) in
  match w_data r with
  | NameData target _ =>
      DNSRecord.mk (ownerText q (w_owner r)) 2 (target ++ ".") stop
  | RawData type rdata =>
      DNSRecord.mk (ownerText q (w_owner r)) type (rdataText type rdata) stop
  end.

Fixpoint decodedSection (q : string) (start : Z) (rs : list wireRecord)
  : list DNSRecord.t :=
  match rs with
  | [] => []
  | r :: rest =>
      decodedRecord q start r
      :: decodedSection q (start + Buf.length (encodeRecord r)) rest
  end.



(** * Properties *)

(** ** The tests of the repository *)

Example test_parseDomainName :
  parseDomainName 4 youtube (JS.Num 0)
  = Ok (mkParsedName "www.youtube.com." (JS.Num 17)).
Proof. reflexivity. Qed.

Example test_interpret_A :
  interpretRDataARecord [192; 168; 1; 1] 1 = Ok "192.168.1.1".
Proof. reflexivity. Qed.

Example test_encodeDomainName :
  encodeDomainName "www.youtube.com" = youtube.
Proof. reflexivity. Qed.

(** ** Buffers and bytes *)

Lemma getZ_app_at (pre : Buf.t) (x : Z) (post : Buf.t) :
  Buf.getZ (pre ++ x :: post)%list (Buf.length pre) = Some x.
Proof.
  unfold Buf.getZ, Buf.length.
  destruct (Z.ltb_spec (Z.of_nat (List.length pre)) 0) as [H|H]; [lia|].
  rewrite Nat2Z.id, nth_error_app2 by lia.
  now rewrite Nat.sub_diag.
Qed.

Lemma getZ_bounds (b : Buf.t) (i x : Z) :
  Buf.getZ b i = Some x -> 0 <= i < Buf.length b.
Proof.
  unfold Buf.getZ, Buf.length.
  destruct (Z.ltb_spec i 0) as [H|H]; [discriminate|].
  intros E. assert (nth_error b (Z.to_nat i) <> None) as N by congruence.
  apply nth_error_Some in N. lia.
Qed.

Lemma getZ_wf (b : Buf.t) (i x : Z) :
  Buf.wf b -> Buf.getZ b i = Some x -> 0 <= x < 256.
Proof.
  unfold Buf.wf, Buf.getZ. intros W.
  destruct (i <? 0); [discriminate|]. intros E.
  apply nth_error_In in E. rewrite Forall_forall in W. now apply W.
Qed.

Lemma toInt32_wf (b : Buf.t) (i : Z) :
  Buf.wf b -> 0 <= JS.toInt32 (Buf.getZ b i) < 256.
Proof.
  intros W. destruct (Buf.getZ b i) as [x|] eqn:E; simpl; [|lia].
  eauto using getZ_wf.
Qed.

(** A boolean property checked on the 256 byte values holds of every byte. *)
Lemma byte_cases (P : Z -> bool) :
  forallb P (map Z.of_nat (seq 0 256)) = true ->
  forall b, 0 <= b < 256 -> P b = true.
Proof.
  intros H b Hb. rewrite forallb_forall in H. apply H.
  apply in_map_iff. exists (Z.to_nat b). split; [lia|].
  apply in_seq. lia.
Qed.

(** The bit operations of [isPointerIndicator] and [calculatePointerOffset]
    against their arithmetic reading, on byte values. *)
Lemma land_192_byte (b : Z) :
  0 <= b < 256 -> (Z.land b 0xc0 =? 0xc0) = (192 <=? b).
Proof.
  intros Hb. apply Bool.eqb_prop.
  apply (byte_cases (fun b => Bool.eqb (Z.land b 0xc0 =? 0xc0) (192 <=? b)));
    [now vm_compute | exact Hb].
Qed.

Lemma land_63_byte (b : Z) : 0 <= b < 256 -> Z.land b 0x3f = b mod 64.
Proof.
  intros Hb. apply Z.eqb_eq.
  apply (byte_cases (fun b => Z.land b 0x3f =? b mod 64));
    [now vm_compute | exact Hb].
Qed.

Lemma land_127_low (b : Z) : 0 <= b < 128 -> Z.land b 127 = b.
Proof.
  intros Hb. change 127 with (Z.ones 7).
  rewrite Z.land_ones by lia. apply Z.mod_small. simpl; lia.
Qed.

Lemma lor_shiftl8 (x lo : Z) :
  0 <= x -> 0 <= lo < 256 -> Z.lor (Z.shiftl x 8) lo = x * 256 + lo.
Proof.
  intros Hx Hlo. rewrite Z.shiftl_mul_pow2 by lia. change (2 ^ 8) with 256.
  assert (Z.land (x * 256) lo = 0) as L; [|
    now rewrite <- (Z.lxor_lor _ _ L), <- (Z.add_nocarry_lxor _ _ L)].
  apply Z.bits_inj'. intros n Hn.
  rewrite Z.land_spec, Z.bits_0.
  change 256 with (2 ^ 8). rewrite <- Z.shiftl_mul_pow2, Z.shiftl_spec by lia.
  destruct (Z.ltb_spec n 8) as [Hlt|Hge].
  - now rewrite Z.testbit_neg_r by lia.
  - destruct (Z.eq_dec lo 0) as [->|Hnz].
    + rewrite Z.bits_0. apply andb_false_r.
    + rewrite (Z.bits_above_log2 lo n); [apply andb_false_r | lia |].
      apply Z.log2_lt_pow2; [lia|].
      apply Z.lt_le_trans with (2 ^ 8); [simpl; lia|].
      apply Z.pow_le_mono_r; lia.
Qed.

Lemma calculatePointerOffset_target (buffer : Buf.t) (p : Z) :
  Buf.wf buffer ->
  calculatePointerOffset (Buf.getZ buffer p) buffer (JS.Num p)
  = pointerTarget buffer p.
Proof.
  intros W. unfold calculatePointerOffset, pointerTarget. simpl.
  pose proof (toInt32_wf buffer p W) as H0.
  pose proof (toInt32_wf buffer (p + 1) W) as H1.
  rewrite land_63_byte by assumption.
  apply lor_shiftl8; [|assumption].
  apply Z.mod_pos_bound; lia.
Qed.

Lemma pointerTarget_range (buffer : Buf.t) (p : Z) :
  Buf.wf buffer -> 0 <= pointerTarget buffer p < 16384.
Proof.
  intros W. unfold pointerTarget.
  pose proof (toInt32_wf buffer (p + 1) W).
  pose proof (Z.mod_pos_bound (JS.toInt32 (Buf.getZ buffer p)) 64). lia.
Qed.

Lemma pointerAt_indicator (buffer : Buf.t) (p : Z) :
  Buf.wf buffer ->
  pointerAt buffer p <->
  isEndOfName (Buf.getZ buffer p) = false /\
  isPointerIndicator (Buf.getZ buffer p) = true.
Proof.
  intros W. unfold pointerAt, isEndOfName, isPointerIndicator.
  destruct (Buf.getZ buffer p) as [b|] eqn:E; simpl.
  - pose proof (getZ_wf _ _ _ W E) as Hb.
    rewrite land_192_byte by assumption. split.
    + intros (b' & [= <-] & H). split; [apply Z.eqb_neq | apply Z.leb_le]; lia.
    + intros [_ H]. exists b. split; [reflexivity | now apply Z.leb_le].
  - split; [intros (b & [=] & _) | intros [_ [=]]].
Qed.

(** ** The decoding loop *)

Lemma loop_never_throws (fuel : nat) (buffer : Buf.t) (st : locals) (e : exn) :
  loop fuel buffer st <> Throw e.
Proof.
  revert st. induction fuel as [|fuel IH]; intros st; simpl; [discriminate|].
  destruct (loopBody buffer st); [apply IH | discriminate].
Qed.

(** More fuel does not change a result. *)
Lemma loop_mono (fuel fuel' : nat) (buffer : Buf.t) (st : locals) (r : parsedName) :
  (fuel <= fuel')%nat -> loop fuel buffer st = Ok r -> loop fuel' buffer st = Ok r.
Proof.
  revert fuel' st. induction fuel as [|fuel IH]; intros fuel' st Hle; simpl.
  - discriminate.
  - destruct fuel' as [|fuel']; [lia|]. simpl.
    destruct (loopBody buffer st); [apply IH; lia | trivial].
Qed.

Lemma parseDomainName_mono fuel fuel' buffer offset r :
  (fuel <= fuel')%nat ->
  parseDomainName fuel buffer offset = Ok r ->
  parseDomainName fuel' buffer offset = Ok r.
Proof. apply loop_mono. Qed.

(** A round that comes back to the state it started from repeats for ever. *)
Lemma loop_fixpoint (buffer : Buf.t) (st : locals) :
  loopBody buffer st = inl st -> forall fuel, loop fuel buffer st = OutOfFuel.
Proof.
  intros H fuel. induction fuel as [|fuel IH]; simpl; [reflexivity|].
  now rewrite H.
Qed.

(** The round of the loop at a pointer: the target becomes the offset, with
    no comparison against the position of the pointer. *)
Lemma loopBody_pointer (buffer : Buf.t) (p : Z) name has orig :
  Buf.wf buffer -> pointerAt buffer p ->
  loopBody buffer (mkLocals name has orig (JS.Num p))
  = inl (mkLocals name true (if has then orig else JS.Num (p + 2))
           (JS.Num (pointerTarget buffer p))).
Proof.
  intros W P. apply (pointerAt_indicator _ _ W) in P as [E I].
  unfold loopBody. cbn [l_offset Buf.get]. rewrite E, I.
  rewrite calculatePointerOffset_target by assumption.
  now destruct has.
Qed.

Lemma self_pointer_diverges (buffer : Buf.t) (p : Z) :
  Buf.wf buffer -> pointerAt buffer p -> pointerTarget buffer p = p ->
  forall fuel, parseDomainName fuel buffer (JS.Num p) = OutOfFuel.
Proof.
  intros W P T fuel. unfold parseDomainName.
  destruct fuel as [|fuel]; [reflexivity|]. simpl loop.
  rewrite loopBody_pointer by assumption. rewrite T.
  apply loop_fixpoint. rewrite loopBody_pointer by assumption. now rewrite T.
Qed.

Ltac wf_by_computation :=
  unfold Buf.wf; repeat constructor; lia.

Ltac pointerAt_by_computation :=
  eexists; split; [reflexivity | lia].

(** C1 (as stated) fails: a pointer at position 0 whose target is 0 makes
    [parseDomainName] run for ever, and with it [parseResponse] when the
    question name is such a pointer; a pointer at position 0 whose target is
    2 is followed and the name is returned, no error being raised. *)
Lemma pointer_target_not_checked :
  (pointerAt selfPointer 0 /\ pointerTarget selfPointer 0 >= 0 /\
   forall fuel, parseDomainName fuel selfPointer (JS.Num 0) = OutOfFuel) /\
  (pointerAt selfPointerResponse 12 /\ pointerTarget selfPointerResponse 12 >= 12 /\
   forall fuel, parseResponse fuel selfPointerResponse = OutOfFuel) /\
  (pointerAt forwardPointer 0 /\ pointerTarget forwardPointer 0 >= 0 /\
   parseDomainName 2 forwardPointer (JS.Num 0) = Ok (mkParsedName "" (JS.Num 2))).
Proof.
  repeat split; try pointerAt_by_computation; try (vm_compute; congruence).
  - apply self_pointer_diverges;
      [wf_by_computation | pointerAt_by_computation | reflexivity].
  - intros fuel. unfold parseResponse, parseQuestionSection.
    change (isResponse selfPointerResponse) with (Ok true).
    cbn [bind negb].
    replace (parseHeader selfPointerResponse) with (Ok (mkHeader 1 1 0 0 0))
      by reflexivity.
    cbn [bind].
    rewrite self_pointer_diverges;
      [reflexivity | wf_by_computation | pointerAt_by_computation | reflexivity].
Qed.

(** ** Rounds of the loop and the offset that is reported *)

Lemma rounds_add (n k : nat) (buffer : Buf.t) (st : locals) :
  rounds (n + k) buffer st
  = match rounds n buffer st with
    | Some st' => rounds k buffer st'
    | None => None
    end.
Proof.
  revert st. induction n as [|n IH]; intros st; simpl; [reflexivity|].
  destruct (loopBody buffer st); [apply IH | reflexivity].
Qed.

Lemma rounds_succ (n : nat) (buffer : Buf.t) (st : locals) :
  rounds (S n) buffer st
  = match rounds n buffer st with
    | Some st' =>
        match loopBody buffer st' with
        | inl st'' => Some st''
        | inr _ => None
        end
    | None => None
    end.
Proof. rewrite <- Nat.add_1_r. apply rounds_add. Qed.

(** A run that returns has made some rounds and then met [break]. *)
Lemma loop_rounds (fuel : nat) (buffer : Buf.t) (st : locals) (r : parsedName) :
  loop fuel buffer st = Ok r ->
  exists n s s', rounds n buffer st = Some s /\
                 loopBody buffer s = inr s' /\ r = finish s'.
Proof.
  revert st. induction fuel as [|fuel IH]; intros st; simpl; [discriminate|].
  destruct (loopBody buffer st) as [st'|st'] eqn:E.
  - intros H. destruct (IH _ H) as (n & s & s' & R & B & F).
    exists (S n), s, s'. simpl. now rewrite E.
  - intros [= <-]. exists O, st, st'. auto.
Qed.

Lemma rounds_after_break (n m : nat) (buffer : Buf.t) (st s s' : locals) :
  rounds n buffer st = Some s -> loopBody buffer s = inr s' ->
  (n < m)%nat -> rounds m buffer st = None.
Proof.
  intros R B Hlt. replace m with (n + S (m - S n))%nat by lia.
  rewrite rounds_add, R. simpl. now rewrite B.
Qed.

(** The three ways a round can go, read off the byte under the offset. *)
Lemma loopBody_cases (buffer : Buf.t) (s : locals) :
  Buf.wf buffer ->
  (exists z, l_offset s = JS.Num z /\ Buf.getZ buffer z = Some 0 /\
             loopBody buffer s
             = inr (mkLocals (l_name s) (l_hasEncounteredPointer s)
                      (l_originalOffset s) (JS.Num (z + 1)))) \/
  (exists p, l_offset s = JS.Num p /\ pointerAt buffer p /\
             loopBody buffer s
             = inl (mkLocals (l_name s) true
                      (if l_hasEncounteredPointer s then l_originalOffset s
                       else JS.Num (p + 2))
                      (JS.Num (pointerTarget buffer p)))) \/
  ((forall p, l_offset s = JS.Num p -> ~ pointerAt buffer p) /\
   exists name off,
     loopBody buffer s
     = inl (mkLocals name (l_hasEncounteredPointer s) (l_originalOffset s) off)).
Proof.
  intros W. destruct s as [name has orig off]. cbn [l_offset l_name
    l_hasEncounteredPointer l_originalOffset].
  destruct (isEndOfName (Buf.get buffer off)) eqn:E.
  - left. unfold isEndOfName in E.
    destruct (Buf.get buffer off) as [b|] eqn:G; [|discriminate].
    apply Z.eqb_eq in E. subst b.
    destruct off as [z|]; [|discriminate]. exists z.
    unfold loopBody. cbn [l_offset]. rewrite G. simpl. auto.
  - destruct (isPointerIndicator (Buf.get buffer off)) eqn:I.
    + right; left. destruct off as [p|]; [|discriminate].
      assert (pointerAt buffer p) as P
        by (apply pointerAt_indicator; auto).
      exists p. repeat split; trivial. now apply loopBody_pointer.
    + right; right. split.
      * intros p -> P. apply (pointerAt_indicator _ _ W) in P as [_ P].
        simpl in I. congruence.
      * unfold loopBody. cbn [l_offset l_name l_hasEncounteredPointer
          l_originalOffset]. rewrite E, I. eauto.
Qed.

Lemma meetsPointer_state (buffer : Buf.t) (offset : JS.number) (n : nat)
      (p : Z) (s : locals) :
  rounds n buffer (initial offset) = Some s ->
  meetsPointer buffer offset n p ->
  l_offset s = JS.Num p /\ pointerAt buffer p.
Proof. intros R (s' & R' & O & P). rewrite R in R'. now injection R' as <-. Qed.

Lemma firstPointer_unique (buffer : Buf.t) (offset : JS.number) (p q : Z) :
  firstPointer buffer offset p -> firstPointer buffer offset q -> p = q.
Proof.
  intros (n & Mp & Lp) (m & Mq & Lq).
  destruct (Nat.lt_trichotomy n m) as [H|[H|H]].
  - now apply Lq in Mp.
  - subst m. destruct Mp as (s & R & O & _).
    destruct (meetsPointer_state _ _ _ _ _ R Mq) as [O' _]. congruence.
  - now apply Lp in Mq.
Qed.

(** What the flag and [originalOffset] record after [k] rounds. *)
Lemma rounds_invariant (buffer : Buf.t) (offset : JS.number) :
  Buf.wf buffer ->
  forall k st, rounds k buffer (initial offset) = Some st ->
  (l_hasEncounteredPointer st = false /\
   forall m q, (m < k)%nat -> ~ meetsPointer buffer offset m q) \/
  (l_hasEncounteredPointer st = true /\
   exists p, firstPointer buffer offset p /\
             l_originalOffset st = JS.Num (p + 2)).
Proof.
  intros W. induction k as [|k IH]; intros st R.
  - injection R as <-. left. split; [reflexivity | intros; lia].
  - rewrite rounds_succ in R.
    destruct (rounds k buffer (initial offset)) as [s|] eqn:Rk; [|discriminate].
    specialize (IH s eq_refl).
    destruct (loopBody_cases buffer s W)
      as [(z & _ & _ & B) | [(p & O & P & B) | (N & name & off & B)]];
      rewrite B in R; [discriminate | |]; injection R as <-;
      cbn [l_hasEncounteredPointer l_originalOffset].
    + right. split; [reflexivity|].
      destruct IH as [[Hf Hno] | [Ht Hp]].
      * exists p. rewrite Hf. split; [|reflexivity].
        exists k. split; [|exact Hno]. exists s. auto.
      * rewrite Ht. exact Hp.
    + destruct IH as [[Hf Hno] | [Ht Hp]]; [left | right; auto].
      split; [assumption|]. intros m q Hm M.
      destruct (Nat.eq_dec m k) as [->|Hne].
      * destruct (meetsPointer_state _ _ _ _ _ Rk M) as [O P].
        exact (N q O P).
      * apply (Hno m q); [lia | assumption].
Qed.

(** C3 (as amended): whenever [parseDomainName] returns, the [newOffset] it
    reports is the position of the first pointer met plus 2, however many
    pointers are followed after it; when no pointer is met, it is the
    position just past the zero byte that ends the name. *)
Theorem newOffset_after_first_pointer
  (fuel : nat) (buffer : Buf.t) (offset : JS.number) (r : parsedName) :
  Buf.wf buffer ->
  parseDomainName fuel buffer offset = Ok r ->
  ((exists p, firstPointer buffer offset p) \/ noPointer buffer offset) /\
  (forall p, firstPointer buffer offset p -> newOffset r = JS.Num (p + 2)) /\
  (noPointer buffer offset ->
   exists z, endsAt buffer offset z /\ newOffset r = JS.Num (z + 1)).
Proof.
  intros W H. apply loop_rounds in H as (n & s & s' & R & B & ->).
  fold (initial offset) in R.
  destruct (loopBody_cases buffer s W)
    as [(z & O & Z0 & B') | [(p & _ & _ & B') | (_ & name & off & B')]];
    rewrite B' in B; try discriminate. injection B as <-.
  unfold finish. cbn [l_hasEncounteredPointer l_originalOffset l_offset newOffset].
  destruct (rounds_invariant buffer offset W n s R) as [[Hf Hno] | [Ht (p & F & Op)]].
  - assert (noPointer buffer offset) as NP.
    { intros m q M. destruct (Nat.lt_trichotomy m n) as [Hm|[->|Hm]].
      - exact (Hno m q Hm M).
      - destruct (meetsPointer_state _ _ _ _ _ R M) as [Oq (b & G & Hb)].
        rewrite O in Oq. injection Oq as <-. rewrite Z0 in G.
        injection G as <-. lia.
      - destruct M as (s'' & R'' & _).
        rewrite (rounds_after_break n m buffer _ s _ R B' Hm) in R''.
        discriminate. }
    rewrite Hf. repeat split.
    + now right.
    + intros q (m & M & _). now apply NP in M.
    + intros _. exists z. split; [|reflexivity]. exists n, s. auto.
  - rewrite Ht. repeat split.
    + left. now exists p.
    + intros q Fq. now rewrite (firstPointer_unique _ _ _ _ Fq F).
    + intros NP. destruct F as (m & M & _). now apply NP in M.
Qed.

(** ** Strings *)

Lemma string_app_nil_r (s : string) : s ++ "" = s.
Proof. induction s as [|c s IH]; simpl; [reflexivity | now rewrite IH]. Qed.

Lemma string_app_assoc (s t u : string) : (s ++ t) ++ u = s ++ (t ++ u).
Proof. induction s as [|c s IH]; simpl; [reflexivity | now rewrite IH]. Qed.

Lemma length_list_ascii (s : string) :
  List.length (list_ascii_of_string s) = String.length s.
Proof. induction s as [|c s IH]; simpl; [reflexivity | now rewrite IH]. Qed.

Lemma split_nonempty (sep : ascii) (s : string) : JS.split sep s <> [].
Proof.
  induction s as [|c s IH]; simpl; [discriminate|].
  destruct (Ascii.eqb c sep); [discriminate|].
  destruct (JS.split sep s); [contradiction | discriminate].
Qed.

Lemma join_cons_char (sep : string) (c : ascii) (p : string) (ps : list string) :
  JS.join sep (String c p :: ps) = String c (JS.join sep (p :: ps)).
Proof. destruct ps; reflexivity. Qed.

(** Joining the pieces of a split gives the string back. *)
Lemma join_split (s : string) : JS.join "." (JS.split "."%char s) = s.
Proof.
  induction s as [|c s IH]; [reflexivity|].
  cbn [JS.split]. pose proof (split_nonempty "."%char s) as N.
  destruct (JS.split "."%char s) as [|p ps] eqn:E; [contradiction|].
  destruct (Ascii.eqb_spec c "."%char) as [->|Hc].
  - change (JS.join "." ("" :: p :: ps)) with ("." ++ JS.join "." (p :: ps)).
    now rewrite IH.
  - now rewrite join_cons_char, IH.
Qed.

Lemma dotted_join (labels : list string) :
  labels <> [] -> dotted labels = JS.join "." labels ++ ".".
Proof.
  induction labels as [|l ls IH]; [contradiction|]. intros _.
  destruct ls as [|l' ls'].
  - simpl. now rewrite string_app_nil_r.
  - change (dotted (l :: l' :: ls')) with ((l ++ ".") ++ dotted (l' :: ls')).
    rewrite IH by discriminate.
    change (JS.join "." (l :: l' :: ls'))
      with (l ++ "." ++ JS.join "." (l' :: ls')).
    now rewrite !string_app_assoc.
Qed.

(** Encoding a 7-bit string with 'ascii' and decoding it back. *)
Lemma asciiDecode_fromString (s : string) :
  forallb (fun c => (N_of_ascii c <? 128)%N) (list_ascii_of_string s) = true ->
  Buf.asciiDecode (Buf.fromString s) = s.
Proof.
  unfold Buf.asciiDecode, Buf.fromString. rewrite map_map.
  induction s as [|c s IH]; simpl; [reflexivity|].
  intros H. apply andb_prop in H as [Hc Hs].
  rewrite IH by assumption. f_equal.
  apply N.ltb_lt in Hc.
  rewrite land_127_low by lia.
  now rewrite N2Z.id, ascii_N_embedding.
Qed.

Lemma length_fromString (s : string) :
  List.length (Buf.fromString s) = String.length s.
Proof. unfold Buf.fromString. now rewrite length_map, length_list_ascii. Qed.

(** ** Round trip of the name codec *)

Lemma firstn_app_exact {A : Type} (l r : list A) :
  firstn (List.length l) (l ++ r)%list = l.
Proof. induction l as [|x l IH]; simpl; [now destruct r | now rewrite IH]. Qed.

Lemma skipn_app_exact {A : Type} (l r : list A) :
  skipn (List.length l) (l ++ r)%list = r.
Proof. induction l as [|x l IH]; simpl; [reflexivity | exact IH]. Qed.

(** Reading a label that lies wholly inside the buffer. *)
Lemma readLabel_inside (pre : Buf.t) (x : Z) (content post : Buf.t) :
  content <> [] ->
  readLabel (pre ++ (x :: content) ++ post)%list
    (JS.Num (Buf.length pre)) (Some (Buf.length content))
  = Buf.asciiDecode content.
Proof.
  intros NE. unfold readLabel, Buf.toStringAscii. cbn [JS.add JS.toNumber].
  assert (0 < Buf.length content) as Hc
    by (unfold Buf.length; destruct content; [contradiction | simpl; lia]).
  assert (Buf.length (pre ++ (x :: content) ++ post)%list
          = Buf.length pre + 1 + Buf.length content + Buf.length post) as L
    by (unfold Buf.length; rewrite !length_app; simpl; rewrite ?length_app; lia).
  assert (0 <= Buf.length pre /\ 0 <= Buf.length post) as [Hp Hq]
    by (unfold Buf.length; lia).
  rewrite L. cbn [JS.leb JS.geb JS.gtb JS.truncOr0].
  destruct (Z.leb_spec (Buf.length pre + 1) 0); [lia|].
  destruct (Z.leb_spec
              (Buf.length pre + 1 + Buf.length content + Buf.length post)
              (Buf.length pre + 1)); [lia|].
  destruct (Z.ltb_spec
              (Buf.length pre + 1 + Buf.length content + Buf.length post)
              (Buf.length pre + 1 + Buf.length content)); [lia|].
  destruct (Z.leb_spec (Buf.length pre + 1 + Buf.length content)
              (Buf.length pre + 1)); [lia|].
  f_equal. unfold Buf.sub.
  replace (Z.to_nat (Buf.length pre + 1)) with (List.length (pre ++ [x])%list)
    by (unfold Buf.length; rewrite length_app; simpl; lia).
  replace (Z.to_nat (Buf.length pre + 1 + Buf.length content
                     - (Buf.length pre + 1)))
    with (List.length content) by (unfold Buf.length; lia).
  replace (pre ++ (x :: content) ++ post)%list
    with ((pre ++ [x]) ++ content ++ post)%list
    by (rewrite <- app_assoc; reflexivity).
  rewrite skipn_app_exact. apply firstn_app_exact.
Qed.

Lemma encodeLabel_plain (label : string) :
  plainLabel label = true ->
  encodeLabel label
  = (Z.of_nat (String.length label) :: Buf.fromString label)%list /\
  0 < Z.of_nat (String.length label) < 192 /\
  Buf.asciiDecode (Buf.fromString label) = label.
Proof.
  unfold plainLabel. intros H.
  apply andb_prop in H as [H Ha]. apply andb_prop in H as [Hne Hlen].
  apply Nat.leb_le in Hlen. apply negb_true_iff, String.eqb_neq in Hne.
  assert (0 < String.length label)%nat
    by (destruct label; [contradiction | simpl; lia]).
  repeat split; try lia.
  - unfold encodeLabel, Buf.concat, Buf.from. simpl.
    rewrite Z.mod_small by lia. now rewrite app_nil_r.
  - now apply asciiDecode_fromString.
Qed.

(** Decoding a run of plain labels followed by the zero byte, wherever it
    sits in the buffer. *)
Lemma loop_labels (labels : list string) :
  forallb plainLabel labels = true ->
  forall (pre : Buf.t) (name : string) (orig : JS.number),
  loop (S (List.length labels))
    (pre ++ List.concat (map encodeLabel labels) ++ [0])%list
    (mkLocals name false orig (JS.Num (Buf.length pre)))
  = Ok (mkParsedName (name ++ dotted labels)
          (JS.Num (Buf.length
                     (pre ++ List.concat (map encodeLabel labels) ++ [0])%list))).
Proof.
  induction labels as [|l ls IH]; intros H pre name orig.
  - cbn [map List.concat app List.length loop dotted].
    unfold loopBody. cbn [l_offset Buf.get].
    rewrite getZ_app_at. cbn [isEndOfName Z.eqb]. unfold finish.
    cbn [l_hasEncounteredPointer l_offset l_name JS.add].
    rewrite string_app_nil_r. do 2 f_equal.
    unfold Buf.length. rewrite length_app. cbn [List.length]. f_equal. lia.
  - cbn [forallb] in H. apply andb_prop in H as [Hl Hls].
    destruct (encodeLabel_plain l Hl) as (E & Hlen & D).
    cbn [map List.concat List.length dotted]. rewrite E.
    set (n := Z.of_nat (String.length l)) in *.
    set (rest := (List.concat (map encodeLabel ls) ++ [0])%list).
    replace (pre ++ ((n :: Buf.fromString l) ++ List.concat (map encodeLabel ls))
                 ++ [0])%list
      with (pre ++ (n :: Buf.fromString l) ++ rest)%list
      by (unfold rest; now rewrite <- !app_assoc).
    change (loop (S (S (List.length ls))) ?b ?s)
      with (match loopBody b s with
            | inr st' => Ok (finish st')
            | inl st' => loop (S (List.length ls)) b st'
            end).
    assert (loopBody (pre ++ (n :: Buf.fromString l) ++ rest)%list
              (mkLocals name false orig (JS.Num (Buf.length pre)))
            = inl (mkLocals ((name ++ l) ++ ".") false orig
                     (JS.Num (Buf.length (pre ++ n :: Buf.fromString l)%list))))
      as B.
    { unfold loopBody. cbn [l_offset l_name l_hasEncounteredPointer
        l_originalOffset Buf.get].
      change ((n :: Buf.fromString l) ++ rest)%list
        with (n :: (Buf.fromString l ++ rest))%list.
      rewrite getZ_app_at. cbn [isEndOfName].
      destruct (Z.eqb_spec n 0); [lia|].
      unfold isPointerIndicator. cbn [JS.toInt32].
      rewrite land_192_byte by lia.
      destruct (Z.leb_spec 192 n); [lia|].
      change (n :: (Buf.fromString l ++ rest))%list
        with ((n :: Buf.fromString l) ++ rest)%list.
      replace (Some n) with (Some (Buf.length (Buf.fromString l)))
        by (unfold Buf.length; now rewrite length_fromString).
      rewrite readLabel_inside
        by (intros C; apply (f_equal (@List.length Z)) in C;
            rewrite length_fromString in C; simpl in C; lia).
      rewrite D. cbn [JS.add JS.toNumber]. do 3 f_equal.
      unfold Buf.length. rewrite length_app. cbn [List.length]. lia. }
    rewrite B.
    replace (pre ++ (n :: Buf.fromString l) ++ rest)%list
      with ((pre ++ n :: Buf.fromString l) ++ rest)%list
      by (now rewrite <- app_assoc).
    unfold rest. rewrite IH by assumption.
    now rewrite !string_app_assoc.
Qed.

(** C2 (as amended): for every dotted name whose labels are not empty, at
    most 191 bytes long and made of 7-bit ASCII characters, decoding its
    encoding from offset 0 returns the name followed by a dot, and the
    reported offset is the length of the encoding.  One round per label and
    one for the final zero byte are enough. *)
Theorem decode_encode_round_trip (d : string) (fuel : nat) :
  forallb plainLabel (JS.split "."%char d) = true ->
  (List.length (JS.split "."%char d) < fuel)%nat ->
  parseDomainName fuel (encodeDomainName d) (JS.Num 0)
  = Ok (mkParsedName (d ++ ".") (JS.Num (Buf.length (encodeDomainName d)))).
Proof.
  intros P F.
  apply parseDomainName_mono with (fuel := S (List.length (JS.split "."%char d)));
    [lia|].
  unfold parseDomainName, encodeDomainName, Buf.concat.
  rewrite concat_app.
  change (List.concat [Buf.from [0]]) with [0].
  pose proof (loop_labels _ P [] "" (JS.Num 0)) as L.
  cbn [app] in L. change (Buf.length []) with 0 in L.
  rewrite L. cbn [append].
  rewrite dotted_join by apply split_nonempty.
  now rewrite join_split.
Qed.

Lemma decode_encode_round_trip_witness :
  parseDomainName 4 (encodeDomainName "www.youtube.com") (JS.Num 0)
  = Ok (mkParsedName "www.youtube.com." (JS.Num 17)).
Proof.
  apply (decode_encode_round_trip "www.youtube.com" 4); [reflexivity|].
  simpl. lia.
Defined.

(** Once the offset is [NaN] every byte read is [undefined], which is
    neither the end of a name nor a pointer: the loop goes on for ever. *)
Lemma loop_NaN (buffer : Buf.t) (fuel : nat) :
  forall name has orig,
  loop fuel buffer (mkLocals name has orig JS.NaN) = OutOfFuel.
Proof.
  induction fuel as [|fuel IH]; intros name has orig; [reflexivity|].
  cbn [loop]. unfold loopBody. cbn. apply IH.
Qed.

Lemma diverges_after (n : nat) (buffer : Buf.t) (st st' : locals) :
  rounds n buffer st = Some st' ->
  (forall fuel, loop fuel buffer st' = OutOfFuel) ->
  forall fuel, loop fuel buffer st = OutOfFuel.
Proof.
  revert st. induction n as [|n IH]; intros st R D fuel.
  - injection R as ->. apply D.
  - destruct fuel as [|fuel]; [reflexivity|].
    cbn [rounds] in R. cbn [loop].
    destruct (loopBody buffer st) as [s|s]; [|discriminate].
    now apply IH.
Qed.

(** C2 (as stated) fails for labels of at most 255 bytes.  The length byte
    of a label of 192 characters is read back as a compression pointer and
    the decoding never ends; an empty label, as in a name written with its
    final dot, is read back as the end of the name; a character above 127
    loses its top bit. *)
Lemma round_trip_fails_beyond_plain_labels :
  (forallb (fun l => (String.length l <=? 255)%nat) (JS.split "."%char label192)
   = true /\
   forall fuel,
     parseDomainName fuel (encodeDomainName label192) (JS.Num 0) = OutOfFuel) /\
  (forallb (fun l => (String.length l <=? 255)%nat) (JS.split "."%char "a.")
   = true /\
   Buf.length (encodeDomainName "a.") = 4 /\
   parseDomainName 4 (encodeDomainName "a.") (JS.Num 0)
   = Ok (mkParsedName "a." (JS.Num 3))) /\
  (forallb (fun l => (String.length l <=? 255)%nat)
     (JS.split "."%char (String (ascii_of_nat 233) ""))
   = true /\
   parseDomainName 4 (encodeDomainName (String (ascii_of_nat 233) "")) (JS.Num 0)
   = Ok (mkParsedName "i." (JS.Num 3))).
Proof.
  repeat split; try reflexivity.
  intros fuel. unfold parseDomainName.
  eapply diverges_after with (n := 3%nat).
  - vm_compute. reflexivity.
  - intros fuel'. apply loop_NaN.
Qed.

Example chained_first_pointer : firstPointer chained (JS.Num 9) 9.
Proof.
  exists O. split; [|intros; lia].
  exists (initial (JS.Num 9)). repeat split. pointerAt_by_computation.
Qed.

Lemma newOffset_after_first_pointer_witness :
  ((exists p, firstPointer chained (JS.Num 9) p) \/ noPointer chained (JS.Num 9)) /\
  (forall p, firstPointer chained (JS.Num 9) p ->
             newOffset (mkParsedName "a.com." (JS.Num 11)) = JS.Num (p + 2)) /\
  (noPointer chained (JS.Num 9) ->
   exists z, endsAt chained (JS.Num 9) z /\
             newOffset (mkParsedName "a.com." (JS.Num 11)) = JS.Num (z + 1)).
Proof.
  apply (newOffset_after_first_pointer 5 chained (JS.Num 9));
    [wf_by_computation | reflexivity].
Defined.

(** ** Sections of a response *)

Lemma bind_Ok {A B : Type} (m : outcome A) (k : A -> outcome B) (b : B) :
  bind m k = Ok b -> exists a, m = Ok a /\ k a = Ok b.
Proof. destruct m as [a| |]; simpl; [eauto | discriminate | discriminate]. Qed.

Lemma parseSectionsLoop_spec (fuel : nat) (buffer : Buf.t) (n : nat) :
  forall offset acc records,
  parseSectionsLoop fuel buffer n offset acc = Ok records ->
  exists new, records = (acc ++ new)%list /\
              parsedInSequence fuel buffer offset new /\
              List.length new = n.
Proof.
  induction n as [|n IH]; intros offset acc records H.
  - injection H as <-. exists []. now rewrite app_nil_r.
  - cbn [parseSectionsLoop] in H.
    apply bind_Ok in H as (record & P & H).
    apply IH in H as (new & -> & S & L).
    exists (record :: new). rewrite <- app_assoc. simpl. auto.
Qed.

Lemma updateOffset_cons (r : DNSRecord.t) (rs : list DNSRecord.t) (o : JS.number) :
  updateOffset (r :: rs) o = updateOffset rs (DNSRecord.offset r).
Proof.
  unfold updateOffset. destruct rs as [|r' rs]; [reflexivity|].
  cbn [List.length].
  destruct (Z.ltb_spec 0 (Z.of_nat (S (S (List.length rs))))); [|lia].
  destruct (Z.ltb_spec 0 (Z.of_nat (S (List.length rs)))); [|lia].
  replace (S (S (List.length rs)) - 1)%nat with (S (List.length rs)) by lia.
  replace (S (List.length rs) - 1)%nat with (List.length rs) by lia.
  cbn [nth_error].
  destruct (nth_error (r' :: rs) (List.length rs)) eqn:E; [reflexivity|].
  apply nth_error_None in E. simpl in E. lia.
Qed.

(** [updateOffset] gives the offset at which the section ends. *)
Lemma updateOffset_sectionEnd (records : list DNSRecord.t) (start : JS.number) :
  updateOffset records start = sectionEnd start records.
Proof.
  revert start. induction records as [|r rs IH]; intros start; [reflexivity|].
  rewrite updateOffset_cons. apply IH.
Qed.

Lemma parseSections_spec fuel buffer count startOffset records :
  parseSections fuel buffer count startOffset = Ok records ->
  parsedInSequence fuel buffer startOffset records /\
  List.length records = Z.to_nat count.
Proof.
  intros H. apply parseSectionsLoop_spec in H as (new & -> & S & L). auto.
Qed.

Lemma readUInt16BE_range (b : Buf.t) (offset : JS.number) (v : Z) :
  Buf.wf b -> Buf.readUInt16BE b offset = Ok v -> 0 <= v < 65536.
Proof.
  intros W. unfold Buf.readUInt16BE.
  destruct offset as [z|]; cbn [Buf.get JS.add]; [|discriminate].
  destruct (Buf.getZ b z) as [hi|] eqn:Hhi; [|discriminate].
  destruct (Buf.getZ b (z + 1)) as [lo|] eqn:Hlo; [|discriminate].
  intros [= <-].
  pose proof (getZ_wf _ _ _ W Hhi). pose proof (getZ_wf _ _ _ W Hlo). lia.
Qed.

(** The sections of a response that [parseResponse] returns. *)
Lemma sections_of_accepted (fuel : nat) (buffer : Buf.t) (response : Response) :
  parseResponse fuel buffer = Ok response ->
  exists question,
    parseDomainName fuel buffer (JS.Num 12) = Ok question /\
    questionName response = domainName question /\
    let answersStart := JS.add (newOffset question) (JS.Num 4) in
    let authorityStart := sectionEnd answersStart (answerRecords response) in
    let additionalStart := sectionEnd authorityStart (authorityRecords response) in
    Buf.readUInt16BE buffer (JS.Num 6) = Ok (answersCount (header response)) /\
    Buf.readUInt16BE buffer (JS.Num 8) = Ok (authorityCount (header response)) /\
    Buf.readUInt16BE buffer (JS.Num 10) = Ok (additionalCount (header response)) /\
    parsedInSequence fuel buffer answersStart (answerRecords response) /\
    List.length (answerRecords response)
    = Z.to_nat (answersCount (header response)) /\
    parsedInSequence fuel buffer authorityStart (authorityRecords response) /\
    List.length (authorityRecords response)
    = Z.to_nat (authorityCount (header response)) /\
    parsedInSequence fuel buffer additionalStart (additionalRecords response) /\
    List.length (additionalRecords response)
    = Z.to_nat (additionalCount (header response)).
Proof.
  unfold parseResponse, parseQuestionSection. intros H.
  apply bind_Ok in H as (isResp & _ & H).
  destruct (negb isResp); [discriminate|].
  apply bind_Ok in H as (hd & Hh & H).
  apply bind_Ok in H as (question & Q & H).
  apply bind_Ok in H as (answers & A & H).
  apply bind_Ok in H as (authority & N & H).
  apply bind_Ok in H as (additional & R & H).
  injection H as <-. cbn [header questionName answerRecords authorityRecords
    additionalRecords].
  rewrite !updateOffset_sectionEnd in *.
  apply parseSections_spec in A as [A1 A2].
  apply parseSections_spec in N as [N1 N2].
  apply parseSections_spec in R as [R1 R2].
  unfold parseHeader in Hh.
  apply bind_Ok in Hh as (tid & _ & Hh).
  apply bind_Ok in Hh as (qd & _ & Hh).
  apply bind_Ok in Hh as (an & Han & Hh).
  apply bind_Ok in Hh as (ns & Hns & Hh).
  apply bind_Ok in Hh as (ar & Har & Hh).
  injection Hh as <-. cbn [answersCount authorityCount additionalCount] in *.
  exists question. cbv zeta. repeat split; assumption.
Qed.

Example parse_delegationResponse :
  parseResponse 8 delegationResponse = Ok delegation.
Proof. reflexivity. Qed.

(** More fuel does not change what [parseResponse] returns. *)
Lemma parseRecord_mono fuel fuel' buffer offset r :
  (fuel <= fuel')%nat ->
  parseRecord fuel buffer offset = Ok r -> parseRecord fuel' buffer offset = Ok r.
Proof.
  intros Hle. unfold parseRecord. intros H.
  apply bind_Ok in H as (nameData & N & H).
  rewrite (parseDomainName_mono _ _ _ _ _ Hle N). cbn [bind].
  destruct (Buf.readUInt16BE buffer (newOffset nameData)) as [type| |];
    try discriminate. cbn [bind] in *.
  destruct (Buf.readUInt16BE buffer _) as [dataLength| |]; try discriminate.
  cbn [bind] in *.
  destruct (type =? NS_RECORD_TYPE); [|exact H].
  apply bind_Ok in H as (nsName & N' & H).
  now rewrite (parseDomainName_mono _ _ _ _ _ Hle N').
Qed.

Lemma parseSectionsLoop_mono fuel fuel' buffer n :
  (fuel <= fuel')%nat ->
  forall offset acc records,
  parseSectionsLoop fuel buffer n offset acc = Ok records ->
  parseSectionsLoop fuel' buffer n offset acc = Ok records.
Proof.
  intros Hle. induction n as [|n IH]; intros offset acc records H; [exact H|].
  cbn [parseSectionsLoop] in *.
  apply bind_Ok in H as (record & P & H).
  rewrite (parseRecord_mono _ _ _ _ _ Hle P). cbn [bind]. now apply IH.
Qed.

Lemma parseResponse_mono fuel fuel' buffer response :
  (fuel <= fuel')%nat ->
  parseResponse fuel buffer = Ok response ->
  parseResponse fuel' buffer = Ok response.
Proof.
  intros Hle. unfold parseResponse, parseQuestionSection, parseSections.
  intros H.
  destruct (isResponse buffer) as [isResp| |]; try discriminate.
  cbn [bind] in *. destruct (negb isResp); [discriminate|].
  destruct (parseHeader buffer) as [hd| |]; try discriminate. cbn [bind] in *.
  apply bind_Ok in H as (question & Q & H).
  rewrite (parseDomainName_mono _ _ _ _ _ Hle Q). cbn [bind].
  apply bind_Ok in H as (answers & A & H).
  rewrite (parseSectionsLoop_mono _ _ _ _ Hle _ _ _ A). cbn [bind].
  apply bind_Ok in H as (authority & N & H).
  rewrite (parseSectionsLoop_mono _ _ _ _ Hle _ _ _ N). cbn [bind].
  apply bind_Ok in H as (additional & R & H).
  now rewrite (parseSectionsLoop_mono _ _ _ _ Hle _ _ _ R).
Qed.

(** ** The query packet *)

Lemma getZ_app_l (pre post : Buf.t) (i : Z) :
  0 <= i < Buf.length pre -> Buf.getZ (pre ++ post)%list i = Buf.getZ pre i.
Proof.
  unfold Buf.getZ, Buf.length. intros H.
  destruct (Z.ltb_spec i 0); [lia|].
  apply nth_error_app1. lia.
Qed.

Lemma getZ_app_r (pre post : Buf.t) (i : Z) :
  0 <= i -> Buf.getZ (pre ++ post)%list (Buf.length pre + i) = Buf.getZ post i.
Proof.
  unfold Buf.getZ, Buf.length. intros H.
  destruct (Z.ltb_spec (Z.of_nat (List.length pre) + i) 0); [lia|].
  destruct (Z.ltb_spec i 0); [lia|].
  rewrite nth_error_app2 by lia. f_equal. lia.
Qed.

Lemma readUInt16BE_app_r (pre post : Buf.t) (i : Z) :
  0 <= i ->
  Buf.readUInt16BE (pre ++ post)%list (JS.Num (Buf.length pre + i))
  = Buf.readUInt16BE post (JS.Num i).
Proof.
  intros H. unfold Buf.readUInt16BE. cbn [Buf.get JS.add].
  rewrite <- Z.add_assoc. now rewrite !getZ_app_r by lia.
Qed.

Lemma sub_app_exact (pre mid post : Buf.t) :
  Buf.sub (pre ++ mid ++ post)%list (Buf.length pre)
    (Buf.length pre + Buf.length mid) = mid.
Proof.
  unfold Buf.sub, Buf.length.
  replace (Z.to_nat (Z.of_nat (List.length pre) + Z.of_nat (List.length mid)
                     - Z.of_nat (List.length pre)))
    with (List.length mid) by lia.
  rewrite Nat2Z.id, skipn_app_exact. apply firstn_app_exact.
Qed.

(** ** Hexadecimal rendering *)

Lemma hexDigitValue_digitChar (d : Z) :
  0 <= d < 16 -> hexDigitValue (JS.digitChar d) = Some d.
Proof.
  intros H.
  assert (0 <= d < 256) as Hb by lia.
  pose proof (byte_cases
    (fun d => if d <? 16
              then match hexDigitValue (JS.digitChar d) with
                   | Some v => v =? d
                   | None => false
                   end
              else true) eq_refl d Hb) as C.
  cbv beta in C. destruct (Z.ltb_spec d 16); [|lia].
  destruct (hexDigitValue (JS.digitChar d)); [|discriminate].
  apply Z.eqb_eq in C. now subst.
Qed.

Lemma digitChar_nonzero (d : Z) :
  0 < d < 16 -> JS.digitChar d <> "0"%char.
Proof.
  intros H E. pose proof (hexDigitValue_digitChar d ltac:(lia)) as V.
  rewrite E in V. vm_compute in V. injection V as V. lia.
Qed.

(** The digits produced for [n], read back from the left with [acc] already
    read, give [acc * 16^k + n] for the number [k] of digits produced. *)
Lemma digits_value (fuel : nat) :
  forall n rest, 0 <= n < 16 ^ Z.of_nat (S fuel) ->
  exists k, 0 < k /\ n < 16 ^ k /\
            forall acc, hexValueFrom acc (JS.digits fuel 16 n rest)
                        = hexValueFrom (acc * 16 ^ k + n) rest.
Proof.
  assert (forall n rest, 0 <= n -> n / 16 = 0 ->
            exists k, 0 < k /\ n < 16 ^ k /\
              forall acc,
                hexValueFrom acc (String (JS.digitChar (n mod 16)) rest)
                = hexValueFrom (acc * 16 ^ k + n) rest) as Last.
  { intros n rest Hn Hq. exists 1.
    assert (n < 16) by (apply Z.div_small_iff in Hq; lia).
    repeat split; try lia. intros acc. cbn [hexValueFrom].
    rewrite Z.mod_small by lia.
    now rewrite hexDigitValue_digitChar by lia. }
  induction fuel as [|fuel IH]; intros n rest Hn.
  - cbn [JS.digits]. apply Last; [lia|].
    apply Z.div_small. change (16 ^ Z.of_nat 1) with 16 in Hn. lia.
  - cbn [JS.digits]. destruct (Z.eqb_spec (n / 16) 0) as [Hq|Hq].
    + apply Last; [lia | assumption].
    + assert (0 <= n / 16 < 16 ^ Z.of_nat (S fuel)) as Hd.
      { split; [apply Z.div_pos; lia|].
        apply Z.div_lt_upper_bound; [lia|].
        replace (Z.of_nat (S (S fuel))) with (Z.of_nat (S fuel) + 1) in Hn by lia.
        rewrite Z.pow_add_r in Hn by lia. lia. }
      destruct (IH (n / 16) (String (JS.digitChar (n mod 16)) rest) Hd)
        as (k & Hk & Hlt & V).
      exists (k + 1). rewrite Z.pow_add_r by lia. change (16 ^ 1) with 16.
      pose proof (Z.div_mod n 16 ltac:(lia)) as DM.
      pose proof (Z.mod_pos_bound n 16 ltac:(lia)) as MB.
      repeat split; try lia. intros acc. rewrite V. cbn [hexValueFrom].
      rewrite hexDigitValue_digitChar by lia. f_equal. lia.
Qed.

Lemma digits_leading (fuel : nat) :
  forall n rest, 0 < n < 16 ^ Z.of_nat (S fuel) ->
  exists c s', JS.digits fuel 16 n rest = String c s' /\ c <> "0"%char.
Proof.
  assert (forall n rest, 0 < n -> n / 16 = 0 ->
            exists c s', String (JS.digitChar (n mod 16)) rest = String c s' /\
                         c <> "0"%char) as Last.
  { intros n rest Hn Hq.
    assert (n < 16) by (apply Z.div_small_iff in Hq; lia).
    rewrite Z.mod_small by lia.
    exists (JS.digitChar n), rest. split; [reflexivity|].
    apply digitChar_nonzero. lia. }
  induction fuel as [|fuel IH]; intros n rest Hn.
  - cbn [JS.digits]. apply Last; [lia|].
    apply Z.div_small. change (16 ^ Z.of_nat 1) with 16 in Hn. lia.
  - cbn [JS.digits]. destruct (Z.eqb_spec (n / 16) 0) as [Hq|Hq].
    + apply Last; [lia | assumption].
    + apply IH. split.
      * assert (0 <= n / 16) by (apply Z.div_pos; lia). lia.
      * apply Z.div_lt_upper_bound; [lia|].
        replace (Z.of_nat (S (S fuel))) with (Z.of_nat (S fuel) + 1) in Hn by lia.
        rewrite Z.pow_add_r in Hn by lia. lia.
Qed.

Lemma toString16_fuel (n : Z) :
  0 <= n -> n < 16 ^ Z.of_nat (S (Z.to_nat (Z.log2 n))).
Proof.
  intros Hn. destruct (Z.eq_dec n 0) as [->|Hnz]; [reflexivity|].
  pose proof (Z.log2_nonneg n) as L.
  rewrite Nat2Z.inj_succ, Z2Nat.id by lia.
  apply Z.lt_le_trans with (2 ^ Z.succ (Z.log2 n)).
  - apply Z.log2_spec. lia.
  - apply Z.pow_le_mono_l. lia.
Qed.

(** [toString(16)] writes a non-negative integer in lowercase hexadecimal
    without padding. *)
Lemma toString16_lowerHex (n : Z) : 0 <= n -> lowerHexOf n (JS.toString 16 n).
Proof.
  intros Hn. unfold lowerHexOf, JS.toString.
  pose proof (toString16_fuel n Hn) as F. split.
  - destruct (digits_value _ n "" (conj Hn F)) as (k & _ & _ & V).
    rewrite V. reflexivity.
  - destruct (Z.eq_dec n 0) as [->|Hnz]; [left; reflexivity | right].
    apply digits_leading. lia.
Qed.

Lemma groups16_range (b : Buf.t) :
  Buf.wf b -> Forall (fun g => 0 <= g < 65536) (groups16 b).
Proof.
  unfold Buf.wf. revert b.
  fix IH 1. intros [|hi [|lo rest]] W; cbn [groups16]; try constructor.
  - inversion W as [|? ? Hhi W']. inversion W' as [|? ? Hlo W'']. lia.
  - apply IH. inversion W as [|? ? _ W']. now inversion W'.
Qed.

(** C7: for every 16-byte rdata, [interpretRDataARecord] with type AAAA (28)
    returns the eight 16-bit big-endian groups of the rdata, each written in
    lowercase hexadecimal without padding, joined by ":". *)
Theorem interpret_AAAA (rdata : Buf.t) :
  Buf.wf rdata -> List.length rdata = 16%nat ->
  interpretRDataARecord rdata AAAA_RECORD_TYPE
  = Ok (JS.join ":" (map (JS.toString 16) (groups16 rdata))) /\
  List.length (groups16 rdata) = 8%nat /\
  Forall (fun g => 0 <= g < 65536 /\ lowerHexOf g (JS.toString 16 g))
    (groups16 rdata).
Proof.
  intros W L. repeat split.
  - do 17 (destruct rdata as [|? rdata]; try discriminate). reflexivity.
  - do 17 (destruct rdata as [|? rdata]; try discriminate). reflexivity.
  - pose proof (groups16_range rdata W) as R.
    rewrite Forall_forall in *. intros g Hg. specialize (R g Hg).
    split; [assumption | apply toString16_lowerHex; lia].
Qed.

Lemma interpret_AAAA_witness :
  interpretRDataARecord [32; 1; 13; 184; 0; 0; 8; 0; 0; 0; 0; 0; 0; 0; 0; 1] 28
  = Ok "2001:db8:0:800:0:0:0:1".
Proof.
  apply (interpret_AAAA [32; 1; 13; 184; 0; 0; 8; 0; 0; 0; 0; 0; 0; 0; 0; 1]);
    [wf_by_computation | reflexivity].
Defined.

(** ** The decision taken on a response *)

Section FirstSuchThat.
Context {A : Type} (P : A -> Prop) (f : A -> bool).
Hypothesis f_spec : forall y, f y = true <-> P y.

Lemma filter_firstSuchThat (l : list A) (x : A) :
  firstSuchThat P l x -> exists rest, filter f l = x :: rest.
Proof.
  intros (pre & post & -> & Px & N).
  induction pre as [|y pre IH]; cbn [app filter].
  - apply f_spec in Px. rewrite Px. eauto.
  - destruct (f y) eqn:E.
    + apply f_spec in E. exfalso. apply (N y); [now left | assumption].
    + apply IH. intros z Hz. apply N. now right.
Qed.

Lemma find_firstSuchThat (l : list A) (x : A) :
  firstSuchThat P l x -> find f l = Some x.
Proof.
  intros (pre & post & -> & Px & N).
  induction pre as [|y pre IH]; cbn [app find].
  - apply f_spec in Px. now rewrite Px.
  - destruct (f y) eqn:E.
    + apply f_spec in E. exfalso. apply (N y); [now left | assumption].
    + apply IH. intros z Hz. apply N. now right.
Qed.

Lemma filter_none (l : list A) :
  (forall y, In y l -> ~ P y) -> filter f l = [].
Proof.
  induction l as [|y l IH]; intros N; [reflexivity|]. cbn [filter].
  destruct (f y) eqn:E.
  - apply f_spec in E. exfalso. apply (N y); [now left | assumption].
  - apply IH. intros z Hz. apply N. now right.
Qed.

Lemma find_none (l : list A) :
  (forall y, In y l -> ~ P y) -> find f l = None.
Proof.
  induction l as [|y l IH]; intros N; [reflexivity|]. cbn [find].
  destruct (f y) eqn:E.
  - apply f_spec in E. exfalso. apply (N y); [now left | assumption].
  - apply IH. intros z Hz. apply N. now right.
Qed.
End FirstSuchThat.

Lemma isNS_spec (rec : DNSRecord.t) :
  (DNSRecord.type rec =? NS_RECORD_TYPE) = true <-> isNS rec.
Proof. apply Z.eqb_eq. Qed.

Lemma ownedBy_spec (name : string) (rec : DNSRecord.t) :
  String.eqb (DNSRecord.domainName rec) name = true <-> ownedBy name rec.
Proof. apply String.eqb_eq. Qed.

(** C4 (as amended): when the authority section has an NS record and no
    record of the additional section is owned by the target of the first NS
    record, [processDNSResponse] returns without any effect: it sends no
    further query, reports no address and raises no error. *)
Theorem missing_glue_does_nothing (response : Response) (nsRecord : DNSRecord.t) :
  firstSuchThat isNS (authorityRecords response) nsRecord ->
  (forall rec, In rec (additionalRecords response) ->
               ~ ownedBy (DNSRecord.rdata nsRecord) rec) ->
  processDNSResponse response = Ok [].
Proof.
  intros F N. unfold processDNSResponse.
  destruct (filter_firstSuchThat isNS _ isNS_spec _ _ F) as (rest & ->).
  now rewrite (find_none _ _ (ownedBy_spec (DNSRecord.rdata nsRecord)) _ N).
Qed.

Example parse_gluelessResponse : parseResponse 8 gluelessResponse = Ok glueless.
Proof. reflexivity. Qed.

Lemma first_in_singleton {A : Type} (P : A -> Prop) (x : A) :
  P x -> firstSuchThat P [x] x.
Proof. intros H. exists [], []. repeat split; [assumption | intros y []]. Qed.

Lemma missing_glue_does_nothing_witness : processDNSResponse glueless = Ok [].
Proof.
  apply (missing_glue_does_nothing glueless nsExample).
  - apply first_in_singleton. reflexivity.
  - intros rec [].
Defined.

(** C4 (as stated) fails: on a response that [parseResponse] produces, with
    an NS record in the authority section and an empty additional section,
    nothing is thrown; the call returns with no effect. *)
Lemma missing_glue_is_not_an_error :
  parseResponse 8 gluelessResponse = Ok glueless /\
  firstSuchThat isNS (authorityRecords glueless) nsExample /\
  additionalRecords glueless = [] /\
  processDNSResponse glueless = Ok [] /\
  ~ exists e, processDNSResponse glueless = Throw e.
Proof.
  repeat split.
  - apply first_in_singleton. reflexivity.
  - intros (e & H). discriminate H.
Qed.

(** C8 (as amended): when the authority section has an NS record and the
    first record of the additional section owned by the target of the first
    NS record has a non-empty rdata, [processDNSResponse] calls [queryDNS]
    for [DOMAIN_TO_RESOLVE] with that rdata as the server; the datagram then
    sent goes to that address on port 53 and its question is the encoding of
    [DOMAIN_TO_RESOLVE], the name first asked for, not the NS name. *)
Theorem glue_is_queried_next
  (response : Response) (nsRecord glue : DNSRecord.t) :
  firstSuchThat isNS (authorityRecords response) nsRecord ->
  firstSuchThat (ownedBy (DNSRecord.rdata nsRecord))
    (additionalRecords response) glue ->
  DNSRecord.rdata glue <> "" ->
  processDNSResponse response
  = Ok [CallQueryDNS DOMAIN_TO_RESOLVE (DNSRecord.rdata glue)] /\
  forall identifier, List.length identifier = 2%nat ->
    let sent := queryDNS identifier DOMAIN_TO_RESOLVE (DNSRecord.rdata glue) in
    dg_address sent = DNSRecord.rdata glue /\
    dg_port sent = 53 /\
    Buf.sub (dg_payload sent) 12
      (12 + Buf.length (encodeDomainName DOMAIN_TO_RESOLVE))
    = encodeDomainName DOMAIN_TO_RESOLVE /\
    parseDomainName 5 (dg_payload sent) (JS.Num 12)
    = Ok (mkParsedName (DOMAIN_TO_RESOLVE ++ ".") (JS.Num 28)).
Proof.
  intros F G NE. split.
  - unfold processDNSResponse.
    destruct (filter_firstSuchThat isNS _ isNS_spec _ _ F) as (rest & ->).
    rewrite (find_firstSuchThat _ _ (ownedBy_spec (DNSRecord.rdata nsRecord)) _ _ G).
    cbn [option_map truthy].
    apply String.eqb_neq in NE. now rewrite NE.
  - intros identifier L.
    destruct identifier as [|a [|b [|c rest]]]; try discriminate.
    repeat split.
Qed.

Lemma glue_is_queried_next_witness :
  processDNSResponse delegation = Ok [CallQueryDNS "www.google.com" "10.0.0.1"].
Proof.
  apply (glue_is_queried_next delegation nsExample
           (DNSRecord.mk "ns1.example." 1 "10.0.0.1" (JS.Num 59))).
  - apply first_in_singleton. reflexivity.
  - apply first_in_singleton. reflexivity.
  - discriminate.
Defined.

(** C8 (as stated) fails: on a response that [parseResponse] produces, with
    an NS record and an additional record owned by its target, no query is
    issued when the rdata of that record is the empty string. *)
Lemma matching_record_without_address :
  parseResponse 8 emptyGlueResponse = Ok emptyGlueDelegation /\
  firstSuchThat isNS (authorityRecords emptyGlueDelegation) nsExample /\
  In emptyGlue (additionalRecords emptyGlueDelegation) /\
  ownedBy (DNSRecord.rdata nsExample) emptyGlue /\
  processDNSResponse emptyGlueDelegation = Ok [] /\
  processDNSResponse emptyGlueDelegation
  <> Ok [CallQueryDNS DOMAIN_TO_RESOLVE (DNSRecord.rdata emptyGlue)].
Proof.
  repeat split.
  - apply first_in_singleton. reflexivity.
  - now left.
  - discriminate.
Qed.


Example parse_emptyAnswerResponse :
  parseResponse 8 emptyAnswerResponse = Ok emptyResponse.
Proof. reflexivity. Qed.



(** * Further properties of the code *)

(** ** What [parseResponse] does with buffers that are not responses *)

Lemma getZ_beyond (b : Buf.t) (i : Z) :
  Buf.length b <= i -> Buf.getZ b i = None.
Proof.
  unfold Buf.getZ, Buf.length. intros H.
  destruct (i <? 0); [reflexivity|]. apply nth_error_None. lia.
Qed.

Lemma getZ_inside (b : Buf.t) (i : Z) :
  0 <= i < Buf.length b -> exists x, Buf.getZ b i = Some x.
Proof.
  unfold Buf.getZ, Buf.length. intros H.
  destruct (Z.ltb_spec i 0); [lia|].
  destruct (nth_error b (Z.to_nat i)) as [x|] eqn:E; [eauto|].
  apply nth_error_None in E. lia.
Qed.

Lemma readUInt16BE_inside (b : Buf.t) (i : Z) :
  0 <= i -> i + 1 < Buf.length b ->
  exists v, Buf.readUInt16BE b (JS.Num i) = Ok v.
Proof.
  intros H0 H1. unfold Buf.readUInt16BE. cbn [Buf.get JS.add].
  destruct (getZ_inside b i) as (hi & ->); [lia|].
  destruct (getZ_inside b (i + 1)) as (lo & ->); [lia|]. eauto.
Qed.

Lemma readUInt16BE_beyond (b : Buf.t) (i : Z) :
  Buf.length b <= i + 1 -> Buf.readUInt16BE b (JS.Num i) = Throw RangeError.
Proof.
  intros H. unfold Buf.readUInt16BE. cbn [Buf.get JS.add].
  rewrite (getZ_beyond b (i + 1)) by lia.
  now destruct (Buf.getZ b i).
Qed.

(** [readUInt16BE] returns or throws a RangeError. *)
Lemma readUInt16BE_cases (b : Buf.t) (o : JS.number) :
  (exists v, Buf.readUInt16BE b o = Ok v) \/
  Buf.readUInt16BE b o = Throw RangeError.
Proof.
  unfold Buf.readUInt16BE.
  destruct (Buf.get b o); [|now right].
  destruct (Buf.get b (JS.add o (JS.Num 1))); [left; eauto | now right].
Qed.

(** Bit 15 of a 16-bit big-endian value is bit 7 of its first byte. *)
Lemma land_8000 (hi lo : Z) :
  0 <= hi < 256 -> 0 <= lo < 256 ->
  (Z.land (hi * 256 + lo) 0x8000 =? 0) = (hi <? 128).
Proof.
  intros Hhi Hlo. rewrite <- lor_shiftl8 by lia.
  rewrite Z.land_lor_distr_l.
  assert (Z.land lo 0x8000 = 0) as ->.
  { apply Z.eqb_eq.
    now apply (byte_cases (fun lo => Z.land lo 0x8000 =? 0)). }
  rewrite Z.lor_0_r. change 0x8000 with (Z.shiftl 128 8).
  rewrite <- Z.shiftl_land, Z.shiftl_mul_pow2 by lia.
  assert ((Z.land hi 128 =? 0) = (hi <? 128)) as E.
  { apply Bool.eqb_prop.
    now apply (byte_cases
                 (fun hi => Bool.eqb (Z.land hi 128 =? 0) (hi <? 128))). }
  rewrite <- E.
  destruct (Z.eqb_spec (Z.land hi 128) 0) as [->|N]; [reflexivity|].
  apply Z.eqb_neq. change (2 ^ 8) with 256. lia.
Qed.

Lemma isResponse_flag (buffer : Buf.t) (hi lo : Z) :
  Buf.wf buffer ->
  Buf.getZ buffer 2 = Some hi -> Buf.getZ buffer 3 = Some lo ->
  isResponse buffer = Ok (128 <=? hi).
Proof.
  intros W H2 H3. unfold isResponse, Buf.readUInt16BE. cbn [Buf.get JS.add].
  change (2 + 1) with 3. rewrite H2, H3. cbn [bind].
  rewrite land_8000 by eauto using getZ_wf.
  f_equal. destruct (Z.ltb_spec hi 128), (Z.leb_spec 128 hi); simpl; lia || reflexivity.
Qed.

(** X1: a buffer whose flags have the QR bit clear (third byte below 128) is
    refused: [parseResponse] throws the error "Not a DNS response." whatever
    follows the flags. *)
Theorem query_flag_is_refused (fuel : nat) (buffer : Buf.t) (hi lo : Z) :
  Buf.wf buffer ->
  Buf.getZ buffer 2 = Some hi -> Buf.getZ buffer 3 = Some lo ->
  hi < 128 ->
  parseResponse fuel buffer = Throw (Error "Not a DNS response.").
Proof.
  intros W H2 H3 Hhi. unfold parseResponse.
  rewrite (isResponse_flag _ _ _ W H2 H3). cbn [bind].
  destruct (Z.leb_spec 128 hi); [lia | reflexivity].
Qed.

Lemma query_flag_is_refused_witness :
  parseResponse 8 [0x12; 0x34; 0x01; 0x00; 0x00; 0x01]
  = Throw (Error "Not a DNS response.").
Proof.
  apply (query_flag_is_refused 8 [0x12; 0x34; 0x01; 0x00; 0x00; 0x01] 1 0);
    [wf_by_computation | reflexivity | reflexivity | lia].
Defined.

Lemma parseHeader_short (buffer : Buf.t) :
  Buf.length buffer < 12 -> parseHeader buffer = Throw RangeError.
Proof.
  intros L. unfold parseHeader.
  destruct (readUInt16BE_cases buffer (JS.Num 0)) as [(v0 & ->)| ->]; [|reflexivity].
  destruct (readUInt16BE_cases buffer (JS.Num 4)) as [(v4 & ->)| ->]; [|reflexivity].
  destruct (readUInt16BE_cases buffer (JS.Num 6)) as [(v6 & ->)| ->]; [|reflexivity].
  destruct (readUInt16BE_cases buffer (JS.Num 8)) as [(v8 & ->)| ->]; [|reflexivity].
  cbn [bind]. now rewrite (readUInt16BE_beyond buffer 10) by lia.
Qed.

(** X2: a buffer of fewer than 12 bytes never parses and never hangs:
    [parseResponse] throws, a RangeError when the flags or the header cannot
    be read (always so below 4 bytes), the error "Not a DNS response." when
    the flags are there with the QR bit clear. *)
Theorem short_buffer_throws (fuel : nat) (buffer : Buf.t) :
  Buf.length buffer < 12 ->
  (parseResponse fuel buffer = Throw RangeError \/
   parseResponse fuel buffer = Throw (Error "Not a DNS response.")) /\
  (Buf.length buffer < 4 -> parseResponse fuel buffer = Throw RangeError).
Proof.
  intros L. unfold parseResponse, isResponse. split.
  - destruct (readUInt16BE_cases buffer (JS.Num 2)) as [(flags & ->)| ->];
      [|now left].
    cbn [bind]. destruct (negb _); [now right | left].
    now rewrite parseHeader_short.
  - intros L4. now rewrite (readUInt16BE_beyond buffer 2) by lia.
Qed.

Lemma short_buffer_throws_witness :
  (parseResponse 8 [0x12; 0x34; 0x80; 0x00; 0x00; 0x01] = Throw RangeError \/
   parseResponse 8 [0x12; 0x34; 0x80; 0x00; 0x00; 0x01]
   = Throw (Error "Not a DNS response.")) /\
  (Buf.length [0x12; 0x34; 0x80; 0x00; 0x00; 0x01] < 4 ->
   parseResponse 8 [0x12; 0x34; 0x80; 0x00; 0x00; 0x01] = Throw RangeError).
Proof.
  apply (short_buffer_throws 8 [0x12; 0x34; 0x80; 0x00; 0x00; 0x01]).
  reflexivity.
Defined.

(** ** Names and records that run off the end of the buffer *)

Lemma add_NaN (a : JS.number) : JS.add (JS.add a JS.NaN) (JS.Num 1) = JS.NaN.
Proof. now destruct a. Qed.

Lemma loop_undefined (buffer : Buf.t) (fuel : nat) name has orig offset :
  Buf.get buffer offset = None ->
  loop fuel buffer (mkLocals name has orig offset) = OutOfFuel.
Proof.
  intros G. destruct fuel as [|fuel]; [reflexivity|].
  cbn [loop]. unfold loopBody. cbn [l_offset]. rewrite G.
  cbn [isEndOfName isPointerIndicator JS.toInt32 JS.toNumber].
  change (Z.land 0 192 =? 192) with false. cbv iota.
  rewrite add_NaN. apply loop_NaN.
Qed.






(** Whatever the fuel, a run of [parseDomainName] has returned the one
    result it can return or is still running. *)
Lemma parseDomainName_stable fuel0 fuel buffer offset r :
  parseDomainName fuel0 buffer offset = Ok r ->
  parseDomainName fuel buffer offset = Ok r \/
  parseDomainName fuel buffer offset = OutOfFuel.
Proof.
  intros H. destruct (parseDomainName fuel buffer offset) as [r'|e|] eqn:E.
  - left. f_equal.
    pose proof (parseDomainName_mono _ (Nat.max fuel0 fuel) _ _ _
                  (Nat.le_max_l _ _) H) as H1.
    pose proof (parseDomainName_mono _ (Nat.max fuel0 fuel) _ _ _
                  (Nat.le_max_r _ _) E) as H2.
    congruence.
  - exfalso. exact (loop_never_throws _ _ _ _ E).
  - now right.
Qed.

Lemma parseRecord_outside (fuel : nat) (buffer : Buf.t) (offset : JS.number) :
  Buf.get buffer offset = None -> parseRecord fuel buffer offset = OutOfFuel.
Proof.
  intros G. unfold parseRecord.
  unfold parseDomainName. now rewrite (loop_undefined buffer fuel "" false offset offset G).
Qed.

Lemma parseSections_none (fuel : nat) (buffer : Buf.t) (count : Z) start :
  count <= 0 -> parseSections fuel buffer count start = Ok [].
Proof.
  intros H. unfold parseSections.
  now replace (Z.to_nat count) with O by lia.
Qed.

Lemma parseSections_outside (fuel : nat) (buffer : Buf.t) (count : Z) start :
  0 < count -> Buf.get buffer start = None ->
  parseSections fuel buffer count start = OutOfFuel.
Proof.
  intros H G. unfold parseSections.
  destruct (Z.to_nat count) as [|n] eqn:E; [lia|].
  cbn [parseSectionsLoop]. now rewrite parseRecord_outside.
Qed.

(** X4: a response that stops after its twelve bytes of header gives no
    parsed response, and is not refused as "Not a DNS response." either:
    the question name would start at offset 12, outside the buffer, where
    no name is ever decoded, so that [parseResponse] returns no value. *)
Theorem header_only_response_never_parses (buffer : Buf.t) :
  Buf.length buffer = 12 -> isResponse buffer = Ok true ->
  forall fuel,
    (forall response, parseResponse fuel buffer <> Ok response) /\
    parseResponse fuel buffer <> Throw (Error "Not a DNS response.").
Proof.
  intros L R fuel.
  assert (parseResponse fuel buffer = OutOfFuel) as E.
  { unfold parseResponse, parseQuestionSection.
    rewrite R. cbn [bind negb]. unfold parseHeader.
    destruct (readUInt16BE_inside buffer 0) as (v0 & ->); [lia | lia |].
    destruct (readUInt16BE_inside buffer 4) as (v4 & ->); [lia | lia |].
    destruct (readUInt16BE_inside buffer 6) as (v6 & ->); [lia | lia |].
    destruct (readUInt16BE_inside buffer 8) as (v8 & ->); [lia | lia |].
    destruct (readUInt16BE_inside buffer 10) as (v10 & ->); [lia | lia |].
    cbn [bind].
    unfold parseDomainName. rewrite loop_undefined; [reflexivity|].
    cbn [Buf.get]. apply getZ_beyond. lia. }
  rewrite E. split; [intros response|]; discriminate.
Qed.

Lemma header_only_response_never_parses_witness :
  (forall response, parseResponse 1000 headerOnly <> Ok response) /\
  parseResponse 1000 headerOnly <> Throw (Error "Not a DNS response.").
Proof.
  apply (header_only_response_never_parses headerOnly); reflexivity.
Defined.

(** X5: when the header announces records and the buffer ends with the
    question (its name and the four bytes of type and class), no response
    is returned: the first record announced would start outside the buffer,
    where no name is ever decoded.  The count is not checked against the
    length of the buffer and the sections parsed so far are not returned. *)
Theorem announced_records_missing_never_parses
  (buffer : Buf.t) (hd : Header) (fuel0 : nat) (question : parsedName) (o : Z) :
  isResponse buffer = Ok true ->
  parseHeader buffer = Ok hd ->
  parseDomainName fuel0 buffer (JS.Num 12) = Ok question ->
  newOffset question = JS.Num o ->
  Buf.length buffer <= o + 4 ->
  0 < answersCount hd \/ 0 < authorityCount hd \/ 0 < additionalCount hd ->
  forall fuel response, parseResponse fuel buffer <> Ok response.
Proof.
  intros R H Q O L C fuel response.
  assert (parseResponse fuel buffer = OutOfFuel) as E.
  { unfold parseResponse, parseQuestionSection.
    rewrite R, H. cbn [bind negb].
    destruct (parseDomainName_stable _ fuel _ _ _ Q) as [-> | ->]; [|reflexivity].
    cbn [bind]. rewrite O. cbn [JS.add].
    assert (Buf.get buffer (JS.Num (o + 4)) = None) as G
      by (cbn [Buf.get]; apply getZ_beyond; lia).
    destruct (Z.ltb_spec 0 (answersCount hd)) as [Ha|Ha];
      [now rewrite parseSections_outside|].
    rewrite parseSections_none by lia. cbn [bind].
    change (updateOffset [] (JS.Num (o + 4))) with (JS.Num (o + 4)).
    destruct (Z.ltb_spec 0 (authorityCount hd)) as [Hn|Hn];
      [now rewrite parseSections_outside|].
    rewrite parseSections_none by lia. cbn [bind].
    change (updateOffset [] (JS.Num (o + 4))) with (JS.Num (o + 4)).
    rewrite parseSections_outside; [reflexivity | lia | assumption]. }
  rewrite E. discriminate.
Qed.

Lemma announced_records_missing_never_parses_witness :
  parseResponse 1000 missingAnswerResponse
  <> Ok (mkResponse (mkHeader 0x1234 1 1 0 0) "example." [] [] []).
Proof.
  apply (announced_records_missing_never_parses missingAnswerResponse
           (mkHeader 0x1234 1 1 0 0) 4 (mkParsedName "example." (JS.Num 21)) 21);
    try reflexivity.
  left. reflexivity.
Defined.

(** X6: a record whose owner name is decoded but whose ten bytes of type,
    class, TTL and RDLENGTH are not all inside the buffer makes
    [parseRecord] throw a RangeError. *)
Theorem truncated_record_throws
  (fuel : nat) (buffer : Buf.t) (offset : JS.number) (owner : parsedName) (o : Z) :
  parseDomainName fuel buffer offset = Ok owner ->
  newOffset owner = JS.Num o ->
  Buf.length buffer < o + 10 ->
  parseRecord fuel buffer offset = Throw RangeError.
Proof.
  intros N O L. unfold parseRecord. rewrite N. cbn [bind]. rewrite O.
  destruct (readUInt16BE_cases buffer (JS.Num o)) as [(type & ->)| ->];
    [|reflexivity].
  cbn [bind JS.add].
  now rewrite (readUInt16BE_beyond buffer (o + 2 + 2 + 4)) by lia.
Qed.

Lemma truncated_record_throws_witness :
  parseRecord 8 truncatedRecordResponse (JS.Num 25) = Throw RangeError.
Proof.
  apply (truncated_record_throws 8 truncatedRecordResponse (JS.Num 25)
           (mkParsedName "example." (JS.Num 27)) 27); reflexivity.
Defined.

(** ** Names inside a message *)

Lemma loop_after_rounds (n k : nat) (buffer : Buf.t) (st st' : locals) :
  rounds n buffer st = Some st' ->
  loop (n + k) buffer st = loop k buffer st'.
Proof.
  revert st. induction n as [|n IH]; intros st R.
  - now injection R as ->.
  - cbn [rounds] in R. cbn [Nat.add loop].
    destruct (loopBody buffer st) as [s|s]; [now apply IH | discriminate].
Qed.

(** The round of the loop that reads a plain label. *)
Lemma loopBody_label (pre post : Buf.t) (l : string) name has orig :
  plainLabel l = true ->
  loopBody (pre ++ encodeLabel l ++ post)%list
    (mkLocals name has orig (JS.Num (Buf.length pre)))
  = inl (mkLocals ((name ++ l) ++ ".") has orig
           (JS.Num (Buf.length (pre ++ encodeLabel l)%list))).
Proof.
  intros Hl. destruct (encodeLabel_plain l Hl) as (E & Hlen & D). rewrite E.
  set (n := Z.of_nat (String.length l)) in *.
  unfold loopBody. cbn [l_offset l_name l_hasEncounteredPointer
    l_originalOffset Buf.get].
  change ((n :: Buf.fromString l) ++ post)%list
    with (n :: (Buf.fromString l ++ post))%list.
  rewrite getZ_app_at. cbn [isEndOfName].
  destruct (Z.eqb_spec n 0); [lia|].
  unfold isPointerIndicator. cbn [JS.toInt32].
  rewrite land_192_byte by lia.
  destruct (Z.leb_spec 192 n); [lia|].
  change (n :: (Buf.fromString l ++ post))%list
    with ((n :: Buf.fromString l) ++ post)%list.
  replace (Some n) with (Some (Buf.length (Buf.fromString l)))
    by (unfold Buf.length; now rewrite length_fromString).
  rewrite readLabel_inside
    by (intros C; apply (f_equal (@List.length Z)) in C;
        rewrite length_fromString in C; simpl in C; lia).
  rewrite D. cbn [JS.add JS.toNumber]. do 3 f_equal.
  unfold Buf.length. rewrite length_app. cbn [List.length]. lia.
Qed.

(** Plain labels are read one per round, wherever they sit and whatever
    follows them. *)
Lemma rounds_labels (labels : list string) :
  forallb plainLabel labels = true ->
  forall (pre post : Buf.t) name has orig,
  rounds (List.length labels)
    (pre ++ List.concat (map encodeLabel labels) ++ post)%list
    (mkLocals name has orig (JS.Num (Buf.length pre)))
  = Some (mkLocals (name ++ dotted labels) has orig
            (JS.Num (Buf.length
                       (pre ++ List.concat (map encodeLabel labels))%list))).
Proof.
  induction labels as [|l ls IH]; intros H pre post name has orig.
  - cbn [map List.concat List.length rounds dotted].
    now rewrite string_app_nil_r, app_nil_r.
  - cbn [forallb] in H. apply andb_prop in H as [Hl Hls].
    cbn [map List.concat List.length rounds dotted].
    rewrite <- (app_assoc (encodeLabel l)).
    rewrite loopBody_label by assumption.
    rewrite (app_assoc pre (encodeLabel l)).
    rewrite IH by assumption.
    now rewrite !string_app_assoc, <- !app_assoc.
Qed.

Lemma length_encodeLabel (l : string) :
  List.length (encodeLabel l) = S (String.length l).
Proof.
  unfold encodeLabel, Buf.concat, Buf.from. simpl.
  now rewrite app_nil_r, length_fromString.
Qed.

Lemma length_encoded_labels (d : string) :
  List.length (List.concat (map encodeLabel (JS.split "."%char d)))
  = S (String.length d).
Proof.
  induction d as [|c d IH]; [reflexivity|].
  cbn [JS.split]. pose proof (split_nonempty "."%char d) as N.
  destruct (JS.split "."%char d) as [|p ps] eqn:E; [contradiction|].
  destruct (Ascii.eqb c "."%char).
  - cbn [map List.concat]. rewrite length_app, length_encodeLabel.
    cbn [map List.concat] in IH. rewrite IH. reflexivity.
  - cbn [map List.concat] in *. rewrite length_app in *.
    rewrite length_encodeLabel in *. cbn [String.length]. lia.
Qed.

Lemma encodeDomainName_unfold (d : string) :
  encodeDomainName d
  = (List.concat (map encodeLabel (JS.split "."%char d)) ++ [0])%list.
Proof.
  unfold encodeDomainName, Buf.concat. now rewrite concat_app.
Qed.

Lemma length_encodeDomainName (d : string) :
  Buf.length (encodeDomainName d) = Z.of_nat (String.length d) + 2.
Proof.
  rewrite encodeDomainName_unfold. unfold Buf.length.
  rewrite length_app, length_encoded_labels. cbn [List.length]. lia.
Qed.

Lemma wf_app (a b : Buf.t) : Buf.wf a -> Buf.wf b -> Buf.wf (a ++ b)%list.
Proof. unfold Buf.wf. intros. apply Forall_app. auto. Qed.

Lemma wf_encodeLabel (l : string) : Buf.wf (encodeLabel l).
Proof.
  unfold encodeLabel, Buf.concat, Buf.from. cbn [map List.concat].
  rewrite app_nil_r. apply wf_app.
  - constructor; [apply Z.mod_pos_bound; lia | constructor].
  - unfold Buf.fromString, Buf.wf. apply Forall_forall. intros x Hx.
    apply in_map_iff in Hx as (c & <- & _).
    pose proof (N_ascii_bounded c). lia.
Qed.

Lemma wf_encodeDomainName (d : string) : Buf.wf (encodeDomainName d).
Proof.
  rewrite encodeDomainName_unfold. apply wf_app; [|wf_by_computation].
  induction (JS.split "."%char d) as [|l ls IH]; [constructor|].
  cbn [map List.concat]. apply wf_app; [apply wf_encodeLabel | exact IH].
Qed.

(** X7: the encoding of a name holds bytes only (values from 0 to 255), is
    two bytes longer than the name (one length byte per label and the zero
    byte) and ends with the zero byte, whatever the name: empty labels and
    labels of any length included. *)
Theorem encodeDomainName_shape (d : string) :
  Buf.wf (encodeDomainName d) /\
  Buf.length (encodeDomainName d) = Z.of_nat (String.length d) + 2 /\
  exists body, encodeDomainName d = (body ++ [0])%list.
Proof.
  split; [apply wf_encodeDomainName|].
  split; [apply length_encodeDomainName|].
  rewrite encodeDomainName_unfold. eauto.
Qed.

(** X8: the packet built by [createDNSQuery] holds bytes only (values from 0
    to 255) when the identifier does, for every domain; its length is the
    length of the identifier plus the length of the domain plus 16. *)
Theorem createDNSQuery_bytes (domain : string) (identifier : Buf.t) :
  Buf.wf identifier ->
  Buf.wf (createDNSQuery domain identifier) /\
  Buf.length (createDNSQuery domain identifier)
  = Buf.length identifier + Z.of_nat (String.length domain) + 16.
Proof.
  intros W.
  assert (createDNSQuery domain identifier
          = (identifier ++ [0; 0; 0; 1; 0; 0; 0; 0; 0; 0]
               ++ encodeDomainName domain ++ [0; 1; 0; 1])%list) as ->
    by reflexivity.
  split.
  - repeat apply wf_app; try assumption; try wf_by_computation.
    apply wf_encodeDomainName.
  - pose proof (length_encodeDomainName domain) as L.
    unfold Buf.length in *. rewrite !length_app. cbn [List.length]. lia.
Qed.

Lemma createDNSQuery_bytes_witness :
  Buf.wf (createDNSQuery "www.google.com" [0xab; 0xcd]) /\
  Buf.length (createDNSQuery "www.google.com" [0xab; 0xcd])
  = Buf.length [0xab; 0xcd] + Z.of_nat (String.length "www.google.com") + 16.
Proof.
  apply (createDNSQuery_bytes "www.google.com" [0xab; 0xcd]).
  wf_by_computation.
Defined.

Lemma holdsAt_get (buffer : Buf.t) (o : Z) (bytes : Buf.t) (i : Z) :
  holdsAt buffer o bytes -> 0 <= i < Buf.length bytes ->
  Buf.getZ buffer (o + i) = Buf.getZ bytes i.
Proof.
  intros (pre & post & -> & <-) Hi.
  rewrite getZ_app_r by lia. now apply getZ_app_l.
Qed.

Lemma holdsAt_app (buffer : Buf.t) (o : Z) (a b : Buf.t) :
  holdsAt buffer o (a ++ b)%list ->
  holdsAt buffer o a /\ holdsAt buffer (o + Buf.length a) b.
Proof.
  intros (pre & post & -> & <-). split.
  - exists pre, (b ++ post)%list. now rewrite <- app_assoc.
  - exists (pre ++ a)%list, post. split; [now rewrite <- !app_assoc|].
    unfold Buf.length. rewrite length_app. lia.
Qed.

Lemma rounds_labels_at (buffer : Buf.t) (o : Z) (labels : list string)
      name has orig :
  forallb plainLabel labels = true ->
  holdsAt buffer o (List.concat (map encodeLabel labels)) ->
  rounds (List.length labels) buffer (mkLocals name has orig (JS.Num o))
  = Some (mkLocals (name ++ dotted labels) has orig
            (JS.Num (o + Buf.length (List.concat (map encodeLabel labels))))).
Proof.
  intros P (pre & post & -> & <-).
  rewrite rounds_labels by assumption. do 3 f_equal.
  unfold Buf.length. rewrite length_app. lia.
Qed.

(** The round that reads the zero byte ends the loop. *)
Lemma loop_zero (buffer : Buf.t) (z : Z) (k : nat) name has orig :
  Buf.getZ buffer z = Some 0 ->
  loop (S k) buffer (mkLocals name has orig (JS.Num z))
  = Ok (mkParsedName name (if has then orig else JS.Num (z + 1))).
Proof.
  intros G. cbn [loop]. unfold loopBody. cbn [l_offset Buf.get]. rewrite G.
  reflexivity.
Qed.

(** The round that reads the two bytes of a pointer to [t]. *)
Lemma loopBody_pointer_to (buffer : Buf.t) (q t : Z) name has orig :
  0 <= t < 16384 ->
  Buf.getZ buffer q = Some (192 + t / 256) ->
  Buf.getZ buffer (q + 1) = Some (t mod 256) ->
  loopBody buffer (mkLocals name has orig (JS.Num q))
  = inl (mkLocals name true (if has then orig else JS.Num (q + 2)) (JS.Num t)).
Proof.
  intros Ht G0 G1.
  assert (0 <= t / 256 < 64) as Hq
    by (split; [apply Z.div_pos; lia | apply Z.div_lt_upper_bound; lia]).
  pose proof (Z.mod_pos_bound t 256 ltac:(lia)) as Hr.
  unfold loopBody. cbn [l_offset l_name l_hasEncounteredPointer
    l_originalOffset Buf.get]. rewrite G0. cbn [isEndOfName].
  destruct (Z.eqb_spec (192 + t / 256) 0); [lia|].
  unfold isPointerIndicator, calculatePointerOffset.
  cbn [JS.toInt32 JS.add Buf.get]. rewrite G1. cbn [JS.toInt32].
  rewrite land_192_byte by lia.
  destruct (Z.leb_spec 192 (192 + t / 256)); [|lia].
  rewrite land_63_byte by lia.
  replace ((192 + t / 256) mod 64) with (t / 256)
    by (replace (192 + t / 256) with (t / 256 + 3 * 64) by lia;
        rewrite Z.mod_add by lia; symmetry; apply Z.mod_small; lia).
  rewrite lor_shiftl8 by lia.
  replace (t / 256 * 256 + t mod 256) with t
    by (pose proof (Z.div_mod t 256 ltac:(lia)); lia).
  now destruct has.
Qed.

Lemma plain_name_rounds (buffer : Buf.t) (o : Z) (d : string) (k : nat)
      name has orig :
  forallb plainLabel (JS.split "."%char d) = true ->
  holdsAt buffer o (encodeDomainName d) ->
  loop (List.length (JS.split "."%char d) + S k) buffer
    (mkLocals name has orig (JS.Num o))
  = Ok (mkParsedName (name ++ d ++ ".")
          (if has then orig
           else JS.Num (o + Z.of_nat (String.length d) + 2))).
Proof.
  intros P H. rewrite encodeDomainName_unfold in H.
  apply holdsAt_app in H as [Hl Hz].
  rewrite (loop_after_rounds _ _ _ _ _ (rounds_labels_at _ _ _ _ _ _ P Hl)).
  rewrite loop_zero.
  - rewrite dotted_join by apply split_nonempty. rewrite join_split.
    do 2 f_equal. destruct has; [reflexivity|]. f_equal.
    unfold Buf.length. rewrite length_encoded_labels. lia.
  - rewrite <- (Z.add_0_r (o + _)).
    now rewrite (holdsAt_get _ _ _ 0 Hz).
Qed.

(** X9: a name written without compression anywhere in a message is decoded
    from its offset, whatever surrounds it: for plain labels the result is
    the name with its final dot, and the offset reported is the one just
    past the encoding (the length of the name plus 2). *)
Theorem plain_name_inside_message
  (buffer : Buf.t) (o : Z) (d : string) (fuel : nat) :
  forallb plainLabel (JS.split "."%char d) = true ->
  holdsAt buffer o (encodeDomainName d) ->
  (List.length (JS.split "."%char d) < fuel)%nat ->
  parseDomainName fuel buffer (JS.Num o)
  = Ok (mkParsedName (d ++ ".")
          (JS.Num (o + Z.of_nat (String.length d) + 2))).
Proof.
  intros P H F.
  replace fuel
    with (List.length (JS.split "."%char d)
          + S (fuel - S (List.length (JS.split "."%char d))))%nat by lia.
  unfold parseDomainName.
  now rewrite (plain_name_rounds buffer o d _ "" false (JS.Num o) P H).
Qed.

Lemma plain_name_inside_message_witness :
  parseDomainName 4 compressedNames (JS.Num 2)
  = Ok (mkParsedName "www.example.com." (JS.Num 19)).
Proof.
  apply (plain_name_inside_message compressedNames 2 "www.example.com" 4).
  - reflexivity.
  - exists [0xff; 0xff], [0x03; 0x6e; 0x73; 0x31; 0xc0; 0x06; 0xff].
    split; reflexivity.
  - simpl. lia.
Defined.

(** X10: a compressed name is decoded to the text it stands for: plain
    labels followed by a pointer to the offset [t] at which a plain name is
    written give the labels followed by that name, and the offset reported
    is the one just past the two bytes of the pointer, wherever [t] lies. *)
Theorem compressed_name_is_expanded
  (buffer : Buf.t) (p t : Z) (prefix : list string) (suffix : string)
  (fuel : nat) :
  forallb plainLabel prefix = true ->
  forallb plainLabel (JS.split "."%char suffix) = true ->
  0 <= t < 16384 ->
  holdsAt buffer p
    (List.concat (map encodeLabel prefix) ++ [192 + t / 256; t mod 256])%list ->
  holdsAt buffer t (encodeDomainName suffix) ->
  (List.length prefix + List.length (JS.split "."%char suffix) + 1 < fuel)%nat ->
  parseDomainName fuel buffer (JS.Num p)
  = Ok (mkParsedName (dotted prefix ++ suffix ++ ".")
          (JS.Num (p + Buf.length (List.concat (map encodeLabel prefix)) + 2))).
Proof.
  intros Pp Ps Ht Hp Hs F.
  apply holdsAt_app in Hp as [Hl Hptr].
  set (q := p + Buf.length (List.concat (map encodeLabel prefix))) in *.
  replace fuel
    with (List.length prefix
          + S (List.length (JS.split "."%char suffix)
               + S (fuel - List.length prefix
                    - List.length (JS.split "."%char suffix) - 2)))%nat by lia.
  unfold parseDomainName.
  rewrite (loop_after_rounds _ _ _ _ _
             (rounds_labels_at _ _ _ "" false (JS.Num p) Pp Hl)).
  fold q. cbn [loop].
  rewrite (loopBody_pointer_to buffer q t); try assumption.
  - rewrite (plain_name_rounds buffer t suffix _ _ true (JS.Num (q + 2)) Ps Hs).
    reflexivity.
  - rewrite <- (Z.add_0_r q). now rewrite (holdsAt_get _ _ _ 0 Hptr).
  - now rewrite (holdsAt_get _ _ _ 1 Hptr).
Qed.

Lemma compressed_name_is_expanded_witness :
  parseDomainName 5 compressedNames (JS.Num 19)
  = Ok (mkParsedName "ns1.example.com." (JS.Num 25)).
Proof.
  apply (compressed_name_is_expanded compressedNames 19 6 ["ns1"]
           "example.com" 5).
  - reflexivity.
  - reflexivity.
  - lia.
  - exists (firstn 19 compressedNames), [0xff]. split; reflexivity.
  - exists (firstn 6 compressedNames), (skipn 19 compressedNames).
    split; reflexivity.
  - simpl. lia.
Defined.

(** ** What every decoded name looks like *)

(** X11: whenever [parseDomainName] returns, the offset it reports is a
    number (never [NaN]), at least 1 and at most one byte past the end of
    the buffer (a pointer whose second byte is missing is still followed). *)
Theorem newOffset_in_bounds
  (fuel : nat) (buffer : Buf.t) (offset : JS.number) (r : parsedName) :
  Buf.wf buffer ->
  parseDomainName fuel buffer offset = Ok r ->
  exists z, newOffset r = JS.Num z /\ 1 <= z <= Buf.length buffer + 1.
Proof.
  intros W H. apply loop_rounds in H as (n & s & s' & R & B & ->).
  fold (initial offset) in R.
  destruct (loopBody_cases buffer s W)
    as [(z & O & Z0 & B') | [(p & _ & _ & B') | (_ & name & off & B')]];
    rewrite B' in B; try discriminate. injection B as <-.
  unfold finish. cbn [l_hasEncounteredPointer l_originalOffset l_offset newOffset].
  destruct (rounds_invariant buffer offset W n s R)
    as [[-> _] | [-> (p & (m & (s0 & _ & _ & (b & G & _)) & _) & ->)]].
  - exists (z + 1). split; [reflexivity|].
    apply getZ_bounds in Z0. lia.
  - exists (p + 2). split; [reflexivity|].
    apply getZ_bounds in G. lia.
Qed.

Lemma newOffset_in_bounds_witness :
  exists z, newOffset (mkParsedName "a.com." (JS.Num 11)) = JS.Num z /\
            1 <= z <= Buf.length chained + 1.
Proof.
  apply (newOffset_in_bounds 5 chained (JS.Num 9));
    [wf_by_computation | reflexivity].
Defined.

Lemma loop_name_shape (buffer : Buf.t) (fuel : nat) :
  forall st r,
  l_name st = "" \/ endsWithDot (l_name st) ->
  loop fuel buffer st = Ok r ->
  domainName r = "" \/ endsWithDot (domainName r).
Proof.
  induction fuel as [|fuel IH]; intros st r P; cbn [loop]; [discriminate|].
  unfold loopBody.
  destruct (isEndOfName _); [intros [= <-]; exact P|].
  destruct (isPointerIndicator _).
  - destruct (negb _); apply IH; exact P.
  - apply IH. right. cbn [l_name]. eexists. reflexivity.
Qed.

(** X12: a name returned by [parseDomainName] is either empty (the root:
    the first byte read is the zero byte) or ends with a dot; no result
    lacks the final separator. *)
Theorem decoded_name_ends_with_dot
  (fuel : nat) (buffer : Buf.t) (offset : JS.number) (r : parsedName) :
  parseDomainName fuel buffer offset = Ok r ->
  domainName r = "" \/ endsWithDot (domainName r).
Proof. apply loop_name_shape. now left. Qed.

Lemma decoded_name_ends_with_dot_witness :
  domainName (mkParsedName "www.youtube.com." (JS.Num 17)) = "" \/
  endsWithDot (domainName (mkParsedName "www.youtube.com." (JS.Num 17))).
Proof.
  apply (decoded_name_ends_with_dot 4 youtube (JS.Num 0)). reflexivity.
Defined.

(** ** A query and the response that echoes it *)

(** X13: the engine's own query is not taken for a response: on the packet
    built by [createDNSQuery] for any domain and any 2-byte identifier,
    [parseResponse] throws the error "Not a DNS response.". *)
Theorem own_query_is_refused (fuel : nat) (domain : string) (identifier : Buf.t) :
  List.length identifier = 2%nat ->
  parseResponse fuel (createDNSQuery domain identifier)
  = Throw (Error "Not a DNS response.").
Proof.
  intros L. destruct identifier as [|a [|b [|c rest]]]; try discriminate.
  reflexivity.
Qed.

Lemma own_query_is_refused_witness :
  parseResponse 8 (createDNSQuery "www.google.com" [0xab; 0xcd])
  = Throw (Error "Not a DNS response.").
Proof.
  apply (own_query_is_refused 8 "www.google.com" [0xab; 0xcd]). reflexivity.
Defined.

Lemma holdsAt_question (domain : string) (a b f0 f1 : Z) :
  holdsAt
    ([a; b; f0; f1; 0; 1; 0; 0; 0; 0; 0; 0]
       ++ encodeDomainName domain ++ [0; 1; 0; 1])%list
    12 (encodeDomainName domain).
Proof.
  exists [a; b; f0; f1; 0; 1; 0; 0; 0; 0; 0; 0], [0; 1; 0; 1].
  split; reflexivity.
Qed.

(** X14: the question of a built query reads back as the domain asked: for
    a domain of plain labels and a 2-byte identifier, the header of the
    packet gives the identifier as transaction ID, one question and no
    record, and the name decoded at offset 12 is the domain with its final
    dot; four bytes after the offset reported the packet ends. *)
Theorem query_question_reads_back
  (fuel : nat) (domain : string) (a b : Z) :
  forallb plainLabel (JS.split "."%char domain) = true ->
  (List.length (JS.split "."%char domain) < fuel)%nat ->
  let query := createDNSQuery domain [a; b] in
  parseHeader query = Ok (mkHeader (a * 256 + b) 1 0 0 0) /\
  parseQuestionSection fuel query (JS.Num 12)
  = Ok (mkParsedName (domain ++ ".") (JS.Num (Buf.length query - 4))).
Proof.
  intros P F query. split; [reflexivity|].
  unfold parseQuestionSection, query.
  change (createDNSQuery domain [a; b])
    with ([a; b; 0; 0; 0; 1; 0; 0; 0; 0; 0; 0]
            ++ encodeDomainName domain ++ [0; 1; 0; 1])%list.
  replace fuel
    with (List.length (JS.split "."%char domain)
          + S (fuel - S (List.length (JS.split "."%char domain))))%nat by lia.
  unfold parseDomainName.
  rewrite (plain_name_rounds _ 12 domain _ "" false (JS.Num 12) P
             (holdsAt_question domain a b 0 0)).
  cbn [append]. do 3 f_equal.
  pose proof (length_encodeDomainName domain) as L.
  unfold Buf.length in *. rewrite !length_app. cbn [List.length]. lia.
Qed.

Lemma query_question_reads_back_witness :
  let query := createDNSQuery "www.google.com" [0xab; 0xcd] in
  parseHeader query = Ok (mkHeader (0xab * 256 + 0xcd) 1 0 0 0) /\
  parseQuestionSection 4 query (JS.Num 12)
  = Ok (mkParsedName "www.google.com." (JS.Num (Buf.length query - 4))).
Proof.
  apply (query_question_reads_back 4 "www.google.com" 0xab 0xcd);
    [reflexivity | simpl; lia].
Defined.

(** X15: a response that echoes a query with the QR bit set and carries no
    record is parsed to the header, the name asked and three empty
    sections; the handler of the datagram then throws in
    [processDNSResponse] (there is no NS record and no answer) and no
    address is reported. *)
Theorem echoed_query_gives_no_address
  (fuel : nat) (domain : string) (a b flags : Z) :
  forallb plainLabel (JS.split "."%char domain) = true ->
  (List.length (JS.split "."%char domain) < fuel)%nat ->
  0 <= flags < 256 ->
  let echo := ([a; b; 0x80; flags; 0; 1; 0; 0; 0; 0; 0; 0]
                 ++ encodeDomainName domain ++ [0; 1; 0; 1])%list in
  parseResponse fuel echo
  = Ok (mkResponse (mkHeader (a * 256 + b) 1 0 0 0) (domain ++ ".") [] [] []) /\
  onMessage fuel echo = Throw TypeError.
Proof.
  intros P F Hf echo.
  assert (parseResponse fuel echo
          = Ok (mkResponse (mkHeader (a * 256 + b) 1 0 0 0) (domain ++ ".")
                  [] [] [])) as E.
  { unfold parseResponse, parseQuestionSection, echo.
    assert (isResponse ([a; b; 0x80; flags; 0; 1; 0; 0; 0; 0; 0; 0]
                          ++ encodeDomainName domain ++ [0; 1; 0; 1])%list
            = Ok true) as ->.
    { unfold isResponse.
      replace (Buf.readUInt16BE _ (JS.Num 2)) with (Ok (0x80 * 256 + flags))
        by reflexivity.
      cbn [bind]. rewrite land_8000 by lia. reflexivity. }
    cbn [bind negb].
    replace (parseHeader _) with (Ok (mkHeader (a * 256 + b) 1 0 0 0))
      by reflexivity.
    cbn [bind].
    replace fuel
      with (List.length (JS.split "."%char domain)
            + S (fuel - S (List.length (JS.split "."%char domain))))%nat
      by lia.
    unfold parseDomainName.
    rewrite (plain_name_rounds _ 12 domain _ "" false (JS.Num 12) P
               (holdsAt_question domain a b 0x80 flags)).
    reflexivity. }
  split; [exact E|]. unfold onMessage. now rewrite E.
Qed.

Lemma echoed_query_gives_no_address_witness :
  let echo := ([0x12; 0x34; 0x80; 0x00; 0; 1; 0; 0; 0; 0; 0; 0]
                 ++ encodeDomainName "example" ++ [0; 1; 0; 1])%list in
  parseResponse 8 echo
  = Ok (mkResponse (mkHeader (0x12 * 256 + 0x34) 1 0 0 0) "example." [] [] []) /\
  onMessage 8 echo = Throw TypeError.
Proof.
  apply (echoed_query_gives_no_address 8 "example" 0x12 0x34 0x00);
    [reflexivity | simpl; lia | lia].
Defined.

(** ** The record interpreter on every rdata *)

Lemma ipv6Loop_spec (n : nat) :
  forall (rest pre : Buf.t) (parts : list string),
  (List.length rest <= n)%nat ->
  ipv6Loop n (pre ++ rest)%list (Buf.length pre) parts
  = if Nat.even (List.length rest)
    then Ok (parts ++ map (JS.toString 16) (groups16 rest))%list
    else Throw RangeError.
Proof.
  induction n as [|n IH]; intros rest pre parts L.
  - destruct rest; [|simpl in L; lia].
    cbn [ipv6Loop]. rewrite !app_nil_r, Z.ltb_irrefl. reflexivity.
  - destruct rest as [|hi [|lo rest]].
    + cbn [ipv6Loop]. rewrite !app_nil_r, Z.ltb_irrefl. reflexivity.
    + cbn [ipv6Loop].
      assert ((Buf.length pre <? Buf.length (pre ++ [hi])%list) = true) as ->
        by (apply Z.ltb_lt; unfold Buf.length; rewrite length_app; simpl; lia).
      unfold Buf.readUInt16BE. cbn [Buf.get JS.add].
      rewrite getZ_app_at.
      rewrite getZ_beyond
        by (unfold Buf.length; rewrite length_app; simpl; lia).
      reflexivity.
    + cbn [ipv6Loop].
      assert ((Buf.length pre <? Buf.length (pre ++ hi :: lo :: rest)%list)
              = true)
        as -> by (apply Z.ltb_lt; unfold Buf.length; rewrite length_app;
                  simpl; lia).
      assert (Buf.readUInt16BE (pre ++ hi :: lo :: rest)%list
                (JS.Num (Buf.length pre)) = Ok (hi * 256 + lo)) as ->.
      { unfold Buf.readUInt16BE. cbn [Buf.get JS.add].
        rewrite getZ_app_at.
        replace (pre ++ hi :: lo :: rest)%list
          with ((pre ++ [hi]) ++ lo :: rest)%list by (now rewrite <- app_assoc).
        replace (Buf.length pre + 1) with (Buf.length (pre ++ [hi])%list)
          by (unfold Buf.length; rewrite length_app; simpl; lia).
        now rewrite getZ_app_at. }
      cbn [bind].
      replace (pre ++ hi :: lo :: rest)%list
        with ((pre ++ [hi; lo]) ++ rest)%list by (now rewrite <- !app_assoc).
      replace (Buf.length pre + 2)
        with (Buf.length (pre ++ [hi; lo])%list)
        by (unfold Buf.length; rewrite !length_app; simpl; lia).
      cbn [List.length Nat.even groups16 map] in *.
      rewrite IH by lia.
      destruct (Nat.even (List.length rest)); [|reflexivity].
      now rewrite <- app_assoc.
Qed.

(** X16: [interpretRDataARecord] with type AAAA does not ask for 16 bytes:
    an rdata of any even length gives that many pairs of bytes as
    hexadecimal groups joined by ":" (the empty string for an empty rdata),
    and an rdata of odd length makes it throw a RangeError. *)
Theorem interpret_AAAA_any_length (rdata : Buf.t) :
  interpretRDataARecord rdata AAAA_RECORD_TYPE
  = if Nat.even (List.length rdata)
    then Ok (JS.join ":" (map (JS.toString 16) (groups16 rdata)))
    else Throw RangeError.
Proof.
  unfold interpretRDataARecord, interpretIPv6Address.
  change (AAAA_RECORD_TYPE =? A_RECORD_TYPE) with false.
  change (AAAA_RECORD_TYPE =? AAAA_RECORD_TYPE) with true. cbv iota.
  pose proof (ipv6Loop_spec (List.length rdata) rdata [] [] (Nat.le_refl _)) as S.
  cbn [app] in S. change (Buf.length []) with 0 in S. rewrite S.
  now destruct (Nat.even (List.length rdata)).
Qed.

Lemma decDigitValue_digitChar (d : Z) :
  0 <= d < 10 -> decDigitValue (JS.digitChar d) = Some d.
Proof.
  intros H.
  assert (0 <= d < 256) as Hb by lia.
  pose proof (byte_cases
    (fun d => if d <? 10
              then match decDigitValue (JS.digitChar d) with
                   | Some v => v =? d
                   | None => false
                   end
              else true) eq_refl d Hb) as C.
  cbv beta in C. destruct (Z.ltb_spec d 10); [|lia].
  destruct (decDigitValue (JS.digitChar d)); [|discriminate].
  apply Z.eqb_eq in C. now subst.
Qed.

Lemma digits_decimal_value (fuel : nat) :
  forall n rest, 0 <= n < 10 ^ Z.of_nat (S fuel) ->
  exists k, 0 < k /\ n < 10 ^ k /\
            forall acc, decValueFrom acc (JS.digits fuel 10 n rest)
                        = decValueFrom (acc * 10 ^ k + n) rest.
Proof.
  assert (forall n rest, 0 <= n -> n / 10 = 0 ->
            exists k, 0 < k /\ n < 10 ^ k /\
              forall acc,
                decValueFrom acc (String (JS.digitChar (n mod 10)) rest)
                = decValueFrom (acc * 10 ^ k + n) rest) as Last.
  { intros n rest Hn Hq. exists 1.
    assert (n < 10) by (apply Z.div_small_iff in Hq; lia).
    repeat split; try lia. intros acc. cbn [decValueFrom].
    rewrite Z.mod_small by lia.
    now rewrite decDigitValue_digitChar by lia. }
  induction fuel as [|fuel IH]; intros n rest Hn.
  - cbn [JS.digits]. apply Last; [lia|].
    apply Z.div_small. change (10 ^ Z.of_nat 1) with 10 in Hn. lia.
  - cbn [JS.digits]. destruct (Z.eqb_spec (n / 10) 0) as [Hq|Hq].
    + apply Last; [lia | assumption].
    + assert (0 <= n / 10 < 10 ^ Z.of_nat (S fuel)) as Hd.
      { split; [apply Z.div_pos; lia|].
        apply Z.div_lt_upper_bound; [lia|].
        replace (Z.of_nat (S (S fuel))) with (Z.of_nat (S fuel) + 1) in Hn by lia.
        rewrite Z.pow_add_r in Hn by lia. lia. }
      destruct (IH (n / 10) (String (JS.digitChar (n mod 10)) rest) Hd)
        as (k & Hk & Hlt & V).
      exists (k + 1). rewrite Z.pow_add_r by lia. change (10 ^ 1) with 10.
      pose proof (Z.div_mod n 10 ltac:(lia)) as DM.
      pose proof (Z.mod_pos_bound n 10 ltac:(lia)) as MB.
      repeat split; try lia. intros acc. rewrite V. cbn [decValueFrom].
      rewrite decDigitValue_digitChar by lia. f_equal. lia.
Qed.

Lemma digits_nonempty (fuel : nat) (radix n : Z) (rest : string) :
  JS.digits fuel radix n rest <> "".
Proof.
  revert n rest. induction fuel as [|fuel IH]; intros n rest; cbn [JS.digits].
  - discriminate.
  - destruct (n / radix =? 0); [discriminate | apply IH].
Qed.

(** [toString(10)], as [join] applies it to a byte, reads back as the byte. *)
Lemma readDecimal_toString (n : Z) :
  0 <= n -> readDecimal (JS.toString 10 n) = Some n.
Proof.
  intros Hn. unfold readDecimal, JS.toString.
  pose proof (digits_nonempty (Z.to_nat (Z.log2 n)) 10 n "") as NE.
  assert (n < 10 ^ Z.of_nat (S (Z.to_nat (Z.log2 n)))) as F.
  { destruct (Z.eq_dec n 0) as [->|Hnz]; [reflexivity|].
    pose proof (Z.log2_nonneg n) as L.
    rewrite Nat2Z.inj_succ, Z2Nat.id by lia.
    apply Z.lt_le_trans with (2 ^ Z.succ (Z.log2 n)).
    - apply Z.log2_spec. lia.
    - apply Z.pow_le_mono_l. lia. }
  destruct (digits_decimal_value _ n "" (conj Hn F)) as (k & _ & _ & V).
  destruct (JS.digits (Z.to_nat (Z.log2 n)) 10 n "") eqn:E; [contradiction|].
  rewrite V. reflexivity.
Qed.

Lemma decValueFrom_noDot (s : string) :
  forall acc v, decValueFrom acc s = Some v -> noDot s = true.
Proof.
  induction s as [|c s IH]; intros acc v; [reflexivity|].
  cbn [decValueFrom noDot].
  destruct (Ascii.eqb_spec c "."%char) as [->|Hc]; [discriminate|].
  destruct (decDigitValue c); [apply IH | discriminate].
Qed.

Lemma readDecimal_noDot (s : string) (v : Z) :
  readDecimal s = Some v -> noDot s = true.
Proof.
  destruct s; [discriminate|]. apply decValueFrom_noDot.
Qed.

Lemma split_app_noDot (p s : string) :
  noDot p = true ->
  JS.split "."%char (p ++ s)
  = match JS.split "."%char s with
    | hd :: tl => (p ++ hd) :: tl
    | [] => [p]
    end.
Proof.
  induction p as [|c p IH]; intros N.
  - cbn [append]. pose proof (split_nonempty "."%char s).
    now destruct (JS.split "."%char s).
  - cbn [noDot] in N. apply andb_prop in N as [Hc Hp].
    apply negb_true_iff in Hc.
    cbn [append JS.split]. rewrite Hc, IH by assumption.
    pose proof (split_nonempty "."%char s).
    now destruct (JS.split "."%char s).
Qed.

(** Splitting what [join] has put together gives the parts back when no
    part holds the separator. *)
Lemma split_join (parts : list string) :
  parts <> [] -> forallb noDot parts = true ->
  JS.split "."%char (JS.join "." parts) = parts.
Proof.
  induction parts as [|p ps IH]; [contradiction|]. intros _ N.
  cbn [forallb] in N. apply andb_prop in N as [Hp Hps].
  destruct ps as [|q qs].
  - cbn [JS.join]. rewrite <- (string_app_nil_r p) at 1.
    rewrite split_app_noDot by assumption. cbn [JS.split].
    now rewrite string_app_nil_r.
  - change (JS.join "." (p :: q :: qs))
      with (p ++ String "."%char (JS.join "." (q :: qs))).
    rewrite split_app_noDot by assumption.
    cbn [JS.split]. rewrite Ascii.eqb_refl.
    rewrite IH by (discriminate || assumption).
    now rewrite string_app_nil_r.
Qed.

Lemma readAll_toString (b : Buf.t) :
  Buf.wf b ->
  readAll (map (JS.toString 10) b) = Some b /\
  forallb noDot (map (JS.toString 10) b) = true.
Proof.
  unfold Buf.wf. induction b as [|x b IH]; intros W; [split; reflexivity|].
  inversion W as [|? ? Hx Wb]. subst. destruct (IH Wb) as [R N].
  cbn [map readAll forallb].
  rewrite readDecimal_toString by lia. rewrite R, N.
  rewrite (readDecimal_noDot _ x (readDecimal_toString x ltac:(lia))).
  split; reflexivity.
Qed.

(** X17: the text that [interpretRDataARecord] gives for type A reads back
    as the rdata: for every non-empty rdata (4 bytes or not, the length is
    not checked) the result is its bytes in decimal separated by dots, so
    that splitting it on the dots and reading the numbers returns the
    bytes. *)
Theorem interpret_A_reads_back (rdata : Buf.t) :
  Buf.wf rdata -> rdata <> [] ->
  exists text, interpretRDataARecord rdata A_RECORD_TYPE = Ok text /\
               readDottedDecimal text = Some rdata.
Proof.
  intros W NE. exists (interpretIPv4Address rdata). split; [reflexivity|].
  unfold readDottedDecimal, interpretIPv4Address.
  destruct (readAll_toString rdata W) as [R N].
  rewrite split_join; [exact R | | exact N].
  destruct rdata; [contradiction | discriminate].
Qed.

Lemma interpret_A_reads_back_witness :
  exists text, interpretRDataARecord [192; 168; 1; 1] A_RECORD_TYPE = Ok text /\
               readDottedDecimal text = Some [192; 168; 1; 1].
Proof.
  apply (interpret_A_reads_back [192; 168; 1; 1]);
    [wf_by_computation | discriminate].
Defined.

Lemma concat_empty_cons (x : string) (xs : list string) :
  String.concat "" (x :: xs) = x ++ String.concat "" xs.
Proof.
  destruct xs; cbn [String.concat]; [now rewrite string_app_nil_r | reflexivity].
Qed.

(** X18: for a type that is neither A nor AAAA, [interpretRDataARecord]
    gives two lowercase hexadecimal digits per byte: the text is twice as
    long as the rdata and reads back, pair by pair, as the rdata. *)
Theorem interpret_other_reads_back (rdata : Buf.t) (type : Z) :
  Buf.wf rdata -> type <> A_RECORD_TYPE -> type <> AAAA_RECORD_TYPE ->
  exists text, interpretRDataARecord rdata type = Ok text /\
               String.length text = (2 * List.length rdata)%nat /\
               readHexPairs text = Some rdata.
Proof.
  intros W T1 T28. exists (Buf.toStringHex rdata). split.
  - unfold interpretRDataARecord.
    destruct (Z.eqb_spec type A_RECORD_TYPE); [contradiction|].
    destruct (Z.eqb_spec type AAAA_RECORD_TYPE); [contradiction | reflexivity].
  - unfold Buf.toStringHex, Buf.wf in *.
    induction rdata as [|x b IH]; [split; reflexivity|].
    inversion W as [|? ? Hx Wb]. subst. destruct (IH Wb) as [L R].
    cbn [map]. rewrite concat_empty_cons. cbn [append String.length readHexPairs].
    assert (0 <= x / 16 < 16)
      by (split; [apply Z.div_pos; lia | apply Z.div_lt_upper_bound; lia]).
    pose proof (Z.mod_pos_bound x 16 ltac:(lia)).
    rewrite !hexDigitValue_digitChar by lia. rewrite R, L. split.
    + cbn [List.length]. lia.
    + pose proof (Z.div_mod x 16 ltac:(lia)) as DM.
      now replace (x / 16 * 16 + x mod 16) with x by lia.
Qed.

Lemma interpret_other_reads_back_witness :
  exists text, interpretRDataARecord [0xde; 0xad; 0x00; 0x0f] 16 = Ok text /\
               String.length text = (2 * List.length [0xde; 0xad; 0x00; 0x0f])%nat /\
               readHexPairs text = Some [0xde; 0xad; 0x00; 0x0f].
Proof.
  apply (interpret_other_reads_back [0xde; 0xad; 0x00; 0x0f] 16);
    [wf_by_computation | discriminate | discriminate].
Defined.

(** ** The other decisions of [processDNSResponse] *)

Example parse_answerResponse : parseResponse 8 answerResponse = Ok answered.
Proof. reflexivity. Qed.

(** X19: when the authority section has no NS record and the answer section
    is not empty, [processDNSResponse] logs "IP Address found: " with the
    rdata of the first answer record, whatever the type of that record and
    whatever follows it, and issues no query. *)
Theorem first_answer_is_reported
  (response : Response) (answerRecord : DNSRecord.t) (rest : list DNSRecord.t) :
  (forall rec, In rec (authorityRecords response) -> ~ isNS rec) ->
  answerRecords response = answerRecord :: rest ->
  processDNSResponse response
  = Ok [ConsoleLog "IP Address found: " (DNSRecord.rdata answerRecord)].
Proof.
  intros N A. unfold processDNSResponse.
  now rewrite (filter_none _ _ isNS_spec _ N), A.
Qed.

Lemma first_answer_is_reported_witness :
  processDNSResponse answered
  = Ok [ConsoleLog "IP Address found: " "93.184.216.34"].
Proof.
  apply (first_answer_is_reported answered answerExample []);
    [intros rec [] | reflexivity].
Defined.

(** X20: an NS record in the authority section takes precedence over the
    answers: [processDNSResponse] then returns without throwing and logs no
    address, whatever the answer section holds; its only possible effect is
    one call of [queryDNS]. *)
Theorem delegation_ignores_answers (response : Response) (nsRecord : DNSRecord.t) :
  firstSuchThat isNS (authorityRecords response) nsRecord ->
  exists effects,
    processDNSResponse response = Ok effects /\
    (List.length effects <= 1)%nat /\
    forall message value, ~ In (ConsoleLog message value) effects.
Proof.
  intros F. unfold processDNSResponse.
  destruct (filter_firstSuchThat isNS _ isNS_spec _ _ F) as (rest & ->).
  destruct (find _ (additionalRecords response)) as [glue|]; cbn [option_map].
  - destruct (truthy (Some (DNSRecord.rdata glue))).
    + eexists. split; [reflexivity|]. split; [simpl; lia|].
      intros m v [H|[]]. discriminate H.
    + exists []. split; [reflexivity|]. split; [simpl; lia | intros m v []].
  - exists []. split; [reflexivity|]. split; [simpl; lia | intros m v []].
Qed.

Lemma delegation_ignores_answers_witness :
  exists effects,
    processDNSResponse
      (mkResponse (mkHeader 0x1234 1 1 1 0) "example." [answerExample]
         [nsExample] [])
    = Ok effects /\
    (List.length effects <= 1)%nat /\
    forall message value, ~ In (ConsoleLog message value) effects.
Proof.
  apply (delegation_ignores_answers
           (mkResponse (mkHeader 0x1234 1 1 1 0) "example." [answerExample]
              [nsExample] [])
           nsExample).
  apply first_in_singleton. reflexivity.
Defined.

(** X21: every query that [processDNSResponse] issues is a query for
    [DOMAIN_TO_RESOLVE], sent to a server whose address is not empty and is
    the rdata of a record of the additional section owned by the target of
    an NS record of the authority section. *)
Theorem queries_go_to_glue_only
  (response : Response) (effects : list effect) (domain server : string) :
  processDNSResponse response = Ok effects ->
  In (CallQueryDNS domain server) effects ->
  domain = DOMAIN_TO_RESOLVE /\ server <> "" /\
  exists nsRecord glue,
    In nsRecord (authorityRecords response) /\ isNS nsRecord /\
    In glue (additionalRecords response) /\
    ownedBy (DNSRecord.rdata nsRecord) glue /\
    DNSRecord.rdata glue = server.
Proof.
  unfold processDNSResponse.
  destruct (filter _ (authorityRecords response)) as [|nsRecord rest] eqn:F.
  - destruct (answerRecords response); [discriminate|].
    intros [= <-] [H|[]]. discriminate H.
  - assert (In nsRecord (authorityRecords response) /\ isNS nsRecord) as [I NS].
    { assert (In nsRecord (nsRecord :: rest)) as H by now left.
      rewrite <- F in H. apply filter_In in H as [H1 H2].
      split; [assumption | now apply isNS_spec]. }
    destruct (find _ (additionalRecords response)) as [glue|] eqn:G;
      cbn [option_map truthy].
    + apply find_some in G as [IG OG]. apply ownedBy_spec in OG.
      destruct (String.eqb_spec (DNSRecord.rdata glue) "") as [E|NE];
        cbn [negb].
      * intros [= <-] [].
      * intros [= <-] [H|[]]. injection H as <- <-.
        repeat split; try assumption. exists nsRecord, glue. auto.
    + intros [= <-] [].
Qed.

Lemma queries_go_to_glue_only_witness :
  "www.google.com" = DOMAIN_TO_RESOLVE /\ "10.0.0.1" <> "" /\
  exists nsRecord glue,
    In nsRecord (authorityRecords delegation) /\ isNS nsRecord /\
    In glue (additionalRecords delegation) /\
    ownedBy (DNSRecord.rdata nsRecord) glue /\
    DNSRecord.rdata glue = "10.0.0.1".
Proof.
  apply (queries_go_to_glue_only delegation
           [CallQueryDNS "www.google.com" "10.0.0.1"]);
    [reflexivity | now left].
Defined.

(** ** The layout of a resource record *)

Lemma readUInt16BE_holdsAt (buffer : Buf.t) (o : Z) (bytes : Buf.t) (i : Z) :
  holdsAt buffer o bytes -> 0 <= i -> i + 1 < Buf.length bytes ->
  Buf.readUInt16BE buffer (JS.Num (o + i)) = Buf.readUInt16BE bytes (JS.Num i).
Proof.
  intros H H0 H1. unfold Buf.readUInt16BE. cbn [Buf.get JS.add].
  rewrite <- Z.add_assoc.
  now rewrite (holdsAt_get _ _ _ i H), (holdsAt_get _ _ _ (i + 1) H) by lia.
Qed.

Lemma sub_holdsAt (buffer : Buf.t) (o : Z) (bytes : Buf.t) :
  holdsAt buffer o bytes ->
  Buf.sub buffer o (o + Buf.length bytes) = bytes.
Proof. intros (pre & post & -> & <-). apply sub_app_exact. Qed.

(** X22: the layout of a record that is not of type NS.  When the owner
    name ends at offset [e] and the buffer holds there two bytes of type,
    two of class, four of TTL, two of RDLENGTH and RDLENGTH bytes of rdata,
    [parseRecord] gives the owner name, the type, the rdata as the record
    interpreter renders it and the offset [e + 10 + RDLENGTH]; class and
    TTL are skipped unread; an error of the interpreter is passed on. *)
Theorem record_layout
  (fuel : nat) (buffer : Buf.t) (offset : JS.number) (owner : parsedName)
  (e t1 t0 c1 c0 l3 l2 l1 l0 n1 n0 : Z) (rdata : Buf.t) :
  parseDomainName fuel buffer offset = Ok owner ->
  newOffset owner = JS.Num e ->
  holdsAt buffer e ([t1; t0; c1; c0; l3; l2; l1; l0; n1; n0] ++ rdata)%list ->
  n1 * 256 + n0 = Buf.length rdata ->
  t1 * 256 + t0 <> NS_RECORD_TYPE ->
  parseRecord fuel buffer offset
  = (text <- interpretRDataARecord rdata (t1 * 256 + t0) ;;
     Ok (DNSRecord.mk (domainName owner) (t1 * 256 + t0) text
           (JS.Num (e + 10 + Buf.length rdata)))).
Proof.
  intros N O H L T. unfold parseRecord. rewrite N. cbn [bind]. rewrite O.
  assert (0 <= Buf.length rdata) as Hr by (unfold Buf.length; lia).
  assert (Buf.length ([t1; t0; c1; c0; l3; l2; l1; l0; n1; n0] ++ rdata)%list
          = 10 + Buf.length rdata) as Len
    by (unfold Buf.length; rewrite length_app; cbn [List.length]; lia).
  pose proof (readUInt16BE_holdsAt _ _ _ 0 H ltac:(lia) ltac:(lia)) as R0.
  pose proof (readUInt16BE_holdsAt _ _ _ 8 H ltac:(lia) ltac:(lia)) as R8.
  rewrite Z.add_0_r in R0. rewrite R0.
  change (Buf.readUInt16BE _ (JS.Num 0)) with (Ok (t1 * 256 + t0)).
  cbn [bind JS.add].
  replace (e + 2 + 2 + 4) with (e + 8) by lia. rewrite R8.
  change (Buf.readUInt16BE _ (JS.Num 8)) with (Ok (n1 * 256 + n0)).
  cbn [bind]. destruct (Z.eqb_spec (t1 * 256 + t0) NS_RECORD_TYPE);
    [contradiction|].
  apply holdsAt_app in H as [_ H]. change (Buf.length [_; _; _; _; _; _; _; _; _; _])
    with 10 in H.
  unfold Buf.slice. cbn [JS.truncOr0]. rewrite L.
  replace (e + 8 + 2) with (e + 10) by lia.
  now rewrite (sub_holdsAt _ _ _ H).
Qed.

Lemma record_layout_witness :
  parseRecord 8 answerResponse (JS.Num 25)
  = (text <- interpretRDataARecord [0x5d; 0xb8; 0xd8; 0x22] (0 * 256 + 1) ;;
     Ok (DNSRecord.mk (domainName (mkParsedName "example." (JS.Num 27)))
           (0 * 256 + 1) text
           (JS.Num (27 + 10 + Buf.length [0x5d; 0xb8; 0xd8; 0x22])))).
Proof.
  apply (record_layout 8 answerResponse (JS.Num 25)
           (mkParsedName "example." (JS.Num 27))
           27 0 1 0 1 0 0 0x0e 0x10 0 4 [0x5d; 0xb8; 0xd8; 0x22]).
  - reflexivity.
  - reflexivity.
  - exists (firstn 27 answerResponse), []. split; reflexivity.
  - reflexivity.
  - discriminate.
Defined.

(** X23: for a record of type NS the RDLENGTH is read and not used: the
    rdata is the name decoded right after the ten bytes of fixed fields,
    and the record ends where that decoding says, whatever the two bytes
    of RDLENGTH hold. *)
Theorem ns_record_ignores_rdlength
  (fuel : nat) (buffer : Buf.t) (offset : JS.number) (owner target : parsedName)
  (e c1 c0 l3 l2 l1 l0 n1 n0 : Z) :
  parseDomainName fuel buffer offset = Ok owner ->
  newOffset owner = JS.Num e ->
  holdsAt buffer e [0; 2; c1; c0; l3; l2; l1; l0; n1; n0] ->
  parseDomainName fuel buffer (JS.Num (e + 10)) = Ok target ->
  parseRecord fuel buffer offset
  = Ok (DNSRecord.mk (domainName owner) NS_RECORD_TYPE (domainName target)
          (newOffset target)).
Proof.
  intros N O H T. unfold parseRecord. rewrite N. cbn [bind]. rewrite O.
  pose proof (readUInt16BE_holdsAt _ _ _ 0 H ltac:(lia) ltac:(reflexivity)) as R0.
  pose proof (readUInt16BE_holdsAt _ _ _ 8 H ltac:(lia) ltac:(reflexivity)) as R8.
  rewrite Z.add_0_r in R0. rewrite R0.
  change (Buf.readUInt16BE _ (JS.Num 0)) with (Ok (0 * 256 + 2)).
  cbn [bind JS.add].
  replace (e + 2 + 2 + 4) with (e + 8) by lia. rewrite R8.
  change (Buf.readUInt16BE _ (JS.Num 8)) with (Ok (n1 * 256 + n0)).
  cbn [bind]. change (0 * 256 + 2 =? NS_RECORD_TYPE) with true. cbv iota.
  replace (e + 8 + 2) with (e + 10) by lia. now rewrite T.
Qed.

Lemma ns_record_ignores_rdlength_witness :
  parseRecord 8 delegationResponse (JS.Num 25)
  = Ok (DNSRecord.mk (domainName (mkParsedName "example." (JS.Num 27)))
          NS_RECORD_TYPE
          (domainName (mkParsedName "ns1.example." (JS.Num 43)))
          (newOffset (mkParsedName "ns1.example." (JS.Num 43)))).
Proof.
  apply (ns_record_ignores_rdlength 8 delegationResponse (JS.Num 25)
           (mkParsedName "example." (JS.Num 27))
           (mkParsedName "ns1.example." (JS.Num 43))
           27 0 1 0 0 0 0 0 6).
  - reflexivity.
  - reflexivity.
  - exists (firstn 27 delegationResponse), (skipn 37 delegationResponse).
    split; reflexivity.
  - reflexivity.
Defined.



(** ** Pointers are followed without a check *)

(** C1 (as amended): [parseDomainName] makes no check on the target of a
    compression pointer.  In a buffer with a pointer at position [p], the
    round of the loop that reads it continues at the 14-bit target whatever
    its relation to [p]; when a plain name is written at the target, be it
    before [p], at [p + 2] or further on, the decoding started at [p]
    returns that name and the offset [p + 2]; when the target is [p]
    itself, the state of the loop comes back to itself and the decoding
    started at [p] never ends. *)
Theorem pointer_followed_unchecked (buffer : Buf.t) (p : Z) :
  Buf.wf buffer -> pointerAt buffer p ->
  (forall name has orig,
     loopBody buffer (mkLocals name has orig (JS.Num p))
     = inl (mkLocals name true (if has then orig else JS.Num (p + 2))
              (JS.Num (pointerTarget buffer p)))) /\
  (forall d fuel,
     forallb plainLabel (JS.split "."%char d) = true ->
     holdsAt buffer (pointerTarget buffer p) (encodeDomainName d) ->
     (List.length (JS.split "."%char d) + 1 < fuel)%nat ->
     parseDomainName fuel buffer (JS.Num p)
     = Ok (mkParsedName (d ++ ".") (JS.Num (p + 2)))) /\
  (pointerTarget buffer p = p ->
   forall fuel, parseDomainName fuel buffer (JS.Num p) = OutOfFuel).
Proof.
  intros W P. repeat split.
  - intros. now apply loopBody_pointer.
  - intros d fuel Pd H F.
    replace fuel
      with (S (List.length (JS.split "."%char d)
               + S (fuel - List.length (JS.split "."%char d) - 2)))%nat by lia.
    unfold parseDomainName. cbn [loop].
    rewrite loopBody_pointer by assumption.
    now rewrite (plain_name_rounds buffer _ d _ "" true (JS.Num (p + 2)) Pd H).
  - intros T. now apply self_pointer_diverges.
Qed.

Lemma pointer_followed_unchecked_witness :
  parseDomainName 3 forwardName (JS.Num 0) = Ok (mkParsedName "a." (JS.Num 2)) /\
  parseDomainName 1000 selfPointer (JS.Num 0) = OutOfFuel.
Proof.
  split.
  - destruct (pointer_followed_unchecked forwardName 0) as (_ & H & _).
    + wf_by_computation.
    + pointerAt_by_computation.
    + apply (H "a" 3%nat); [reflexivity | | simpl; lia].
      exists [0xc0; 0x02], []. split; reflexivity.
  - destruct (pointer_followed_unchecked selfPointer 0) as (_ & _ & H).
    + wf_by_computation.
    + pointerAt_by_computation.
    + apply H. reflexivity.
Defined.

(** C3 (as stated) fails: the decoding of [selfPointer] from offset 0 meets
    a pointer, its first, at position 0, and returns no [newOffset] at all:
    the pointer leads to itself. *)
Lemma pointer_met_and_nothing_returned :
  firstPointer selfPointer (JS.Num 0) 0 /\
  forall fuel, parseDomainName fuel selfPointer (JS.Num 0) = OutOfFuel.
Proof.
  split.
  - exists O. split; [|intros; lia].
    exists (initial (JS.Num 0)). repeat split. pointerAt_by_computation.
  - apply self_pointer_diverges;
      [wf_by_computation | pointerAt_by_computation | reflexivity].
Qed.


(** ** The query packet, field by field *)

Lemma split_noDot (d : string) :
  forallb noDot (JS.split "."%char d) = true.
Proof.
  induction d as [|c d IH]; [reflexivity|].
  cbn [JS.split]. pose proof (split_nonempty "."%char d) as N.
  destruct (JS.split "."%char d) as [|p ps]; [contradiction|].
  cbn [forallb] in IH. apply andb_prop in IH as [Hp Hps].
  destruct (Ascii.eqb c "."%char) eqn:E; cbn [forallb noDot].
  - now rewrite Hp, Hps.
  - now rewrite E, Hp, Hps.
Qed.

Lemma split_labelsOf (d : string) : labelsOf d (JS.split "."%char d).
Proof.
  repeat split; [apply split_nonempty | apply split_noDot | apply join_split].
Qed.

(** A domain has one list of labels, the one that [split] computes. *)
Lemma labelsOf_unique (d : string) (labels : list string) :
  labelsOf d labels -> labels = JS.split "."%char d.
Proof. intros (NE & ND & <-). symmetry. now apply split_join. Qed.

Lemma encodeLabel_labelBytes (l : string) : encodeLabel l = labelBytes l.
Proof.
  unfold encodeLabel, labelBytes, Buf.concat, Buf.from, Buf.fromString.
  cbn [map List.concat app]. rewrite app_nil_r. f_equal.
  apply map_ext. intros c. unfold nat_of_ascii. now rewrite N_nat_Z.
Qed.

(** What [encodeDomainName] computes is the length-prefixed encoding of the
    labels of the domain. *)
Lemma encodeDomainName_lengthPrefixed (d : string) :
  encodeDomainName d = lengthPrefixed (JS.split "."%char d).
Proof.
  rewrite encodeDomainName_unfold. unfold lengthPrefixed. f_equal.
  rewrite flat_map_concat_map. f_equal.
  apply map_ext. apply encodeLabel_labelBytes.
Qed.

(** C6: the packet that [createDNSQuery] builds for a domain and a 2-byte
    identifier is, in this order: the identifier, flags 0x0000, question
    count 1, answer, authority and additional counts 0, the length-prefixed
    encoding of the domain, type 1 (A), class 1 (IN).  The length-prefixed
    encoding is that of the labels of the domain: the one list of strings
    without a dot that joined by dots give the domain, each written as its
    length (one byte) and the codes of its characters, and a zero byte
    after the last.  The second part reads the same fields back from their
    offsets, as big-endian 16-bit values. *)
Theorem createDNSQuery_layout (domain : string) (identifier : Buf.t) :
  List.length identifier = 2%nat ->
  exists labels,
    labelsOf domain labels /\
    (forall labels', labelsOf domain labels' -> labels' = labels) /\
    let query := createDNSQuery domain identifier in
    let n := Buf.length (lengthPrefixed labels) in
    query = (identifier ++ [0; 0] ++ [0; 1] ++ [0; 0] ++ [0; 0] ++ [0; 0]
               ++ lengthPrefixed labels ++ [0; 1] ++ [0; 1])%list /\
    Buf.sub query 0 2 = identifier /\
    Buf.readUInt16BE query (JS.Num 2) = Ok 0 /\
    Buf.readUInt16BE query (JS.Num 4) = Ok 1 /\
    Buf.readUInt16BE query (JS.Num 6) = Ok 0 /\
    Buf.readUInt16BE query (JS.Num 8) = Ok 0 /\
    Buf.readUInt16BE query (JS.Num 10) = Ok 0 /\
    Buf.sub query 12 (12 + n) = lengthPrefixed labels /\
    Buf.readUInt16BE query (JS.Num (12 + n)) = Ok A_RECORD_TYPE /\
    Buf.readUInt16BE query (JS.Num (12 + n + 2)) = Ok 1 /\
    Buf.length query = 12 + n + 4.
Proof.
  intros L. exists (JS.split "."%char domain).
  split; [apply split_labelsOf|].
  split; [intros labels' H; now apply labelsOf_unique|].
  destruct identifier as [|a [|b [|c rest]]]; try discriminate. clear L.
  cbv zeta.
  set (enc := lengthPrefixed (JS.split "."%char domain)).
  assert (createDNSQuery domain [a; b]
          = ([a; b; 0; 0; 0; 1; 0; 0; 0; 0; 0; 0] ++ enc ++ [0; 1; 0; 1])%list) as E.
  { unfold enc. rewrite <- encodeDomainName_lengthPrefixed. reflexivity. }
  rewrite E. split; [reflexivity|]. repeat split; try reflexivity.
  - apply (sub_app_exact [a; b; 0; 0; 0; 1; 0; 0; 0; 0; 0; 0] enc [0; 1; 0; 1]).
  - rewrite app_assoc.
    replace (12 + Buf.length enc)
      with (Buf.length ([a; b; 0; 0; 0; 1; 0; 0; 0; 0; 0; 0] ++ enc)%list + 0)
      by (unfold Buf.length; rewrite length_app; simpl List.length; lia).
    now rewrite readUInt16BE_app_r by lia.
  - rewrite app_assoc.
    replace (12 + Buf.length enc + 2)
      with (Buf.length ([a; b; 0; 0; 0; 1; 0; 0; 0; 0; 0; 0] ++ enc)%list + 2)
      by (unfold Buf.length; rewrite length_app; simpl List.length; lia).
    now rewrite readUInt16BE_app_r by lia.
  - unfold Buf.length. rewrite !length_app. simpl List.length. lia.
Qed.

Lemma createDNSQuery_layout_witness :
  exists labels,
    labelsOf "www.google.com" labels /\
    (forall labels', labelsOf "www.google.com" labels' -> labels' = labels) /\
    let query := createDNSQuery "www.google.com" [0xab; 0xcd] in
    let n := Buf.length (lengthPrefixed labels) in
    query = ([0xab; 0xcd] ++ [0; 0] ++ [0; 1] ++ [0; 0] ++ [0; 0] ++ [0; 0]
               ++ lengthPrefixed labels ++ [0; 1] ++ [0; 1])%list /\
    Buf.sub query 0 2 = [0xab; 0xcd] /\
    Buf.readUInt16BE query (JS.Num 2) = Ok 0 /\
    Buf.readUInt16BE query (JS.Num 4) = Ok 1 /\
    Buf.readUInt16BE query (JS.Num 6) = Ok 0 /\
    Buf.readUInt16BE query (JS.Num 8) = Ok 0 /\
    Buf.readUInt16BE query (JS.Num 10) = Ok 0 /\
    Buf.sub query 12 (12 + n) = lengthPrefixed labels /\
    Buf.readUInt16BE query (JS.Num (12 + n)) = Ok A_RECORD_TYPE /\
    Buf.readUInt16BE query (JS.Num (12 + n + 2)) = Ok 1 /\
    Buf.length query = 12 + n + 4.
Proof.
  apply (createDNSQuery_layout "www.google.com" [0xab; 0xcd]). reflexivity.
Defined.

Example lengthPrefixed_google :
  lengthPrefixed ["www"; "google"; "com"]
  = [3; 119; 119; 119; 6; 103; 111; 111; 103; 108; 101; 3; 99; 111; 109; 0].
Proof. reflexivity. Qed.

(** ** Well-formed responses are parsed *)















Lemma length_decodedSection (q : string) (rs : list wireRecord) :
  forall o, List.length (decodedSection q o rs) = List.length rs.
Proof.
  induction rs as [|r rs IH]; intros o; cbn [decodedSection List.length];
    [reflexivity | now rewrite IH].
Qed.




(** X25: whenever [parseResponse] returns a response on a buffer of bytes,
    the question name was decoded at offset 12, each section holds as many
    records as the header says at offsets 6, 8 and 10, and its records were
    parsed one after the other, the answers from four bytes past the end of
    the question name, each next section from where the one before it
    ended. *)
Theorem accepted_response_sections
  (fuel : nat) (buffer : Buf.t) (response : Response) :
  Buf.wf buffer ->
  parseResponse fuel buffer = Ok response ->
  exists question,
    parseDomainName fuel buffer (JS.Num 12) = Ok question /\
    questionName response = domainName question /\
    let answersStart := JS.add (newOffset question) (JS.Num 4) in
    let authorityStart := sectionEnd answersStart (answerRecords response) in
    let additionalStart := sectionEnd authorityStart (authorityRecords response) in
    Buf.readUInt16BE buffer (JS.Num 6) = Ok (answersCount (header response)) /\
    Buf.readUInt16BE buffer (JS.Num 8) = Ok (authorityCount (header response)) /\
    Buf.readUInt16BE buffer (JS.Num 10) = Ok (additionalCount (header response)) /\
    parsedInSequence fuel buffer answersStart (answerRecords response) /\
    Z.of_nat (List.length (answerRecords response))
    = answersCount (header response) /\
    parsedInSequence fuel buffer authorityStart (authorityRecords response) /\
    Z.of_nat (List.length (authorityRecords response))
    = authorityCount (header response) /\
    parsedInSequence fuel buffer additionalStart (additionalRecords response) /\
    Z.of_nat (List.length (additionalRecords response))
    = additionalCount (header response).
Proof.
  intros W E.
  destruct (sections_of_accepted fuel buffer _ E)
    as (question & Q & QN & C6 & C8 & C10 & A1 & A2 & N1 & N2 & R1 & R2).
  pose proof (readUInt16BE_range _ _ _ W C6).
  pose proof (readUInt16BE_range _ _ _ W C8).
  pose proof (readUInt16BE_range _ _ _ W C10).
  exists question. cbv zeta in *. repeat split; try assumption; lia.
Qed.

Lemma accepted_response_sections_witness :
  exists question,
    parseDomainName 8 delegationResponse (JS.Num 12) = Ok question /\
    questionName delegation = domainName question /\
    let answersStart := JS.add (newOffset question) (JS.Num 4) in
    let authorityStart := sectionEnd answersStart (answerRecords delegation) in
    let additionalStart := sectionEnd authorityStart (authorityRecords delegation) in
    Buf.readUInt16BE delegationResponse (JS.Num 6)
    = Ok (answersCount (header delegation)) /\
    Buf.readUInt16BE delegationResponse (JS.Num 8)
    = Ok (authorityCount (header delegation)) /\
    Buf.readUInt16BE delegationResponse (JS.Num 10)
    = Ok (additionalCount (header delegation)) /\
    parsedInSequence 8 delegationResponse answersStart (answerRecords delegation) /\
    Z.of_nat (List.length (answerRecords delegation))
    = answersCount (header delegation) /\
    parsedInSequence 8 delegationResponse authorityStart
      (authorityRecords delegation) /\
    Z.of_nat (List.length (authorityRecords delegation))
    = authorityCount (header delegation) /\
    parsedInSequence 8 delegationResponse additionalStart
      (additionalRecords delegation) /\
    Z.of_nat (List.length (additionalRecords delegation))
    = additionalCount (header delegation).
Proof.
  apply (accepted_response_sections 8 delegationResponse delegation);
    [wf_by_computation | reflexivity].
Defined.
